(** * Privacy loss of additive noise mechanisms

    A shallow embedding of [dp_accounting/pld/privacy_loss_mechanism.py]:
    the generic [AdditiveNoisePrivacyLoss] layer (sub-sampling algebra and
    hockey-stick divergence) and the four concrete mechanisms (Laplace,
    Gaussian, discrete Laplace, discrete Gaussian).

    Numbers.  The embedding has two layers.

    In the first one Python floats are extended reals with a NaN: a finite
    float is a real number and arithmetic on finite values is exact (no
    rounding, no overflow, no signed zero).  Infinities and NaN follow
    IEEE 754, comparisons with NaN are false, and the Python operations that
    raise ([/] by zero, [math.log] outside its domain, [math.floor] of a
    non-finite value) raise in the embedding as well.  This layer carries
    the statements about which branch the code takes on its own
    comparisons and about the values it returns, which the machine computes
    up to the rounding of the last place.

    In the second one (module [F64]) a float is a binary64 number and the
    arithmetic is the processor's: every operation rounds, overflows and
    underflows as IEEE 754 says.  The functions of the C library and of
    numpy that the code calls are parameters.  This layer carries the
    statements that depend on the rounding of a product, on overflow or on
    underflow: the saturation boundaries of the Laplace inverse and the
    arrays of the discrete Gaussian. *)

From Stdlib Require Import Reals Lra Lia ZArith List Bool ClassicalEpsilon.
From Stdlib Require Floats.
Import ListNotations.

Local Open Scope R_scope.

(** ** Exceptions *)

Inductive exn : Type :=
| ValueError
| ZeroDivisionError
| OverflowError
| IndexError
| TypeError.

Inductive result (A : Type) : Type :=
| Ok (a : A)
| Raise (e : exn).

Arguments Ok {A} a.
Arguments Raise {A} e.

Definition bind {A B : Type} (c : result A) (k : A -> result B) : result B :=
  match c with
  | Ok a => k a
  | Raise e => Raise e
  end.

Notation "x <- c ;; k" := (bind c (fun x => k))
  (at level 61, c at next level, right associativity).

Fixpoint mapM {A B : Type} (f : A -> result B) (l : list A) : result (list B) :=
  match l with
  | [] => Ok []
  | a :: l' => b <- f a ;; bs <- mapM f l' ;; Ok (b :: bs)
  end.

Definition is_ok {A : Type} (c : result A) : bool :=
  match c with Ok _ => true | Raise _ => false end.

(** ** Decidable order on the reals, as booleans *)

Definition Rltb (x y : R) : bool := if Rlt_dec x y then true else false.
Definition Rleb (x y : R) : bool := if Rle_dec x y then true else false.
Definition Reqb (x y : R) : bool := if Req_dec_T x y then true else false.

(** ** Floats *)

Inductive float : Type :=
| NaN
| NInf
| Fin (r : R)
| PInf.

Declare Scope float_scope.
Delimit Scope float_scope with fl.
Bind Scope float_scope with float.

Definition is_nan (a : float) : bool :=
  match a with NaN => true | _ => false end.

Definition is_finite (a : float) : bool :=
  match a with Fin _ => true | _ => false end.

Definition fneg (a : float) : float :=
  match a with
  | NaN => NaN
  | NInf => PInf
  | Fin r => Fin (- r)
  | PInf => NInf
  end.

Definition fabs (a : float) : float :=
  match a with
  | NaN => NaN
  | NInf => PInf
  | Fin r => Fin (Rabs r)
  | PInf => PInf
  end.

Definition fadd (a b : float) : float :=
  match a, b with
  | NaN, _ | _, NaN => NaN
  | PInf, NInf | NInf, PInf => NaN
  | PInf, _ | _, PInf => PInf
  | NInf, _ | _, NInf => NInf
  | Fin x, Fin y => Fin (x + y)
  end.

Definition fsub (a b : float) : float := fadd a (fneg b).

(** [inf_times s r]: the product of an infinity of sign [s] ([true] is
    positive) with the finite value [r]. *)
Definition inf_times (s : bool) (r : R) : float :=
  if Reqb r 0 then NaN
  else if Bool.eqb s (Rltb 0 r) then PInf else NInf.

Definition fmul (a b : float) : float :=
  match a, b with
  | NaN, _ | _, NaN => NaN
  | Fin x, Fin y => Fin (x * y)
  | PInf, Fin r | Fin r, PInf => inf_times true r
  | NInf, Fin r | Fin r, NInf => inf_times false r
  | PInf, PInf | NInf, NInf => PInf
  | PInf, NInf | NInf, PInf => NInf
  end.

(** IEEE division, as numpy performs it (a zero divisor gives an infinity
    or NaN). *)
Definition np_divide (a b : float) : float :=
  match a, b with
  | NaN, _ | _, NaN => NaN
  | Fin x, Fin y =>
      if Reqb y 0 then inf_times true x else Fin (x / y)
  | Fin _, (PInf | NInf) => Fin 0
  | PInf, Fin r => if Reqb r 0 then PInf else inf_times true r
  | NInf, Fin r => if Reqb r 0 then NInf else inf_times false r
  | (PInf | NInf), (PInf | NInf) => NaN
  end.

(** Python's [/] on floats: a zero divisor raises. *)
Definition truediv (a b : float) : result float :=
  match b with
  | Fin y => if Reqb y 0 then Raise ZeroDivisionError else Ok (np_divide a b)
  | _ => Ok (np_divide a b)
  end.

(** Comparisons; each is false when an operand is NaN. *)
Definition flt (a b : float) : bool :=
  match a, b with
  | NaN, _ | _, NaN => false
  | NInf, NInf => false
  | NInf, _ => true
  | _, NInf => false
  | PInf, _ => false
  | Fin _, PInf => true
  | Fin x, Fin y => Rltb x y
  end.

Definition feqb (a b : float) : bool :=
  match a, b with
  | NInf, NInf | PInf, PInf => true
  | Fin x, Fin y => Reqb x y
  | _, _ => false
  end.

Definition fle (a b : float) : bool := flt a b || feqb a b.
Definition fgt (a b : float) : bool := flt b a.
Definition fge (a b : float) : bool := fle b a.

Notation "- a" := (fneg a) : float_scope.
Infix "+" := fadd : float_scope.
Infix "-" := fsub : float_scope.
Infix "*" := fmul : float_scope.
Infix "<?" := flt (at level 70) : float_scope.
Infix "<=?" := fle (at level 70) : float_scope.
Infix ">?" := fgt (at level 70) : float_scope.
Infix ">=?" := fge (at level 70) : float_scope.
Infix "==?" := feqb (at level 70) : float_scope.

Definition fzero : float := Fin 0.
Definition fone : float := Fin 1.
Definition fhalf : float := Fin (1 / 2).

(** [np.maximum], [np.minimum] and [np.clip]: NaN propagates. *)
Definition fmax (a b : float) : float :=
  match a, b with
  | NaN, _ | _, NaN => NaN
  | _, _ => if flt a b then b else a
  end.

Definition fmin (a b : float) : float :=
  match a, b with
  | NaN, _ | _, NaN => NaN
  | _, _ => if flt b a then b else a
  end.

Definition np_clip (x lo hi : float) : float := fmin (fmax x lo) hi.

(** [math.exp] and [np.exp]. *)
Definition fexp (a : float) : float :=
  match a with
  | NaN => NaN
  | NInf => Fin 0
  | Fin r => Fin (exp r)
  | PInf => PInf
  end.

(** [np.expm1]. *)
Definition np_expm1 (a : float) : float :=
  match a with
  | NaN => NaN
  | NInf => Fin (- 1)
  | Fin r => Fin (exp r - 1)
  | PInf => PInf
  end.

(** [np.log]: [-inf] at zero and NaN below it. *)
Definition np_log (a : float) : float :=
  match a with
  | NaN | NInf => NaN
  | Fin r => if Rltb r 0 then NaN else if Reqb r 0 then NInf else Fin (ln r)
  | PInf => PInf
  end.

Definition np_log1p (a : float) : float := np_log (fadd fone a).

(** [math.log] and [math.log1p] raise outside their domain. *)
Definition math_log (a : float) : result float :=
  match a with
  | NaN => Ok NaN
  | NInf => Raise ValueError
  | Fin r => if Rltb 0 r then Ok (Fin (ln r)) else Raise ValueError
  | PInf => Ok PInf
  end.

Definition math_log1p (a : float) : result float := math_log (fadd fone a).

(** [math.sqrt] raises below zero. *)
Definition math_sqrt (a : float) : result float :=
  match a with
  | NaN => Ok NaN
  | NInf => Raise ValueError
  | Fin r => if Rltb r 0 then Raise ValueError else Ok (Fin (sqrt r))
  | PInf => Ok PInf
  end.

(** [np.logaddexp a b] is [log (exp a + exp b)]. *)
Definition np_logaddexp (a b : float) : float :=
  np_log (fadd (fexp a) (fexp b)).

(** Floor and ceiling of a real number. *)
Definition Zfloor (r : R) : Z := Int_part r.
Definition Zceil (r : R) : Z := (- Int_part (- r))%Z.

(** [math.floor] and [math.ceil] return an [int] and raise on non-finite
    arguments. *)
Definition math_floor (a : float) : result Z :=
  match a with
  | NaN => Raise ValueError
  | NInf | PInf => Raise OverflowError
  | Fin r => Ok (Zfloor r)
  end.

Definition math_ceil (a : float) : result Z :=
  match a with
  | NaN => Raise ValueError
  | NInf | PInf => Raise OverflowError
  | Fin r => Ok (Zceil r)
  end.

(** [math.isclose a b] with its default tolerances [rel_tol = 1e-09] and
    [abs_tol = 0.0]. *)
Definition rel_tol : R := / 1000000000.

Definition math_isclose (a b : float) : bool :=
  match a, b with
  | Fin x, Fin y =>
      Reqb x y
      || Rleb (Rabs (y - x)) (Rabs (rel_tol * y))
      || Rleb (Rabs (y - x)) (Rabs (rel_tol * x))
      || Rleb (Rabs (y - x)) 0
  | _, _ => feqb a b
  end.

(** ** Python numbers

    The discrete mechanisms test [isinstance(x, int)], so an evaluation
    point is either an [int] or a [float]. *)

Inductive pynum : Type :=
| PyInt (z : Z)
| PyFloat (f : float).

Definition to_float (x : pynum) : float :=
  match x with
  | PyInt z => Fin (IZR z)
  | PyFloat f => f
  end.

(** [x + k] for an [int] [k]: an [int] when [x] is one, a [float]
    otherwise. *)
Definition padd_int (x : pynum) (k : Z) : pynum :=
  match x with
  | PyInt z => PyInt (z + k)
  | PyFloat f => PyFloat (fadd f (Fin (IZR k)))
  end.

(** ** Boolean-mask indexing of numpy arrays *)

(** [xs[mask]] *)
Fixpoint select {A : Type} (mask : list bool) (xs : list A) : list A :=
  match mask, xs with
  | b :: mask', x :: xs' =>
      if b then x :: select mask' xs' else select mask' xs'
  | _, _ => []
  end.

(** [xs[mask] = vs] *)
Fixpoint assign {A : Type} (mask : list bool) (xs vs : list A) : list A :=
  match mask, xs with
  | b :: mask', x :: xs' =>
      if b then
        match vs with
        | v :: vs' => v :: assign mask' xs' vs'
        | [] => x :: xs'
        end
      else x :: assign mask' xs' vs
  | _, _ => xs
  end.

Fixpoint zip_with {A B C : Type} (f : A -> B -> C) (l : list A) (l' : list B)
  : list C :=
  match l, l' with
  | a :: t, b :: t' => f a b :: zip_with f t t'
  | _, _ => []
  end.

(** ** [common.log_a_times_exp_b_plus_c] *)

(** Modelled from the spec: [common.log_a_times_exp_b_plus_c] lives in
    [dp_accounting/pld/common.py], which is not part of the sources at hand.
    The spec describes it as an evaluation of [log(a * exp(b) + c)], and
    that is the value given here. *)
Definition log_a_times_exp_b_plus_c (a b c : float) : float :=
  np_log (fadd (fmul a (fexp b)) c).

(** ** Data classes *)

Inductive AdjacencyType : Type :=
| ADD
| REMOVE.

Record TailPrivacyLossDistribution : Type := {
  lower_x_truncation : float;
  upper_x_truncation : float;
  tail_probability_mass_function : list (float * float)
}.

Record ConnectDotsBounds : Type := {
  epsilon_upper : option float;
  epsilon_lower : option float;
  lower_x : option Z;
  upper_x : option Z
}.

(** Modelled from the spec: [common.DifferentialPrivacyParameters] lives in
    [dp_accounting/pld/common.py], which is not part of the sources at hand.
    The spec describes it as a container for a target [(epsilon, delta)]. *)
Module common.

Record DifferentialPrivacyParameters : Type := {
  epsilon : float;
  delta : float
}.

End common.

(** [int(x)] on a float: truncation towards zero. *)
Definition py_int (a : float) : result Z :=
  match a with
  | NaN => Raise ValueError
  | NInf | PInf => Raise OverflowError
  | Fin r => Ok (if Rltb r 0 then Zceil r else Zfloor r)
  end.

(** A Python [dict] with float keys, in insertion order.  [dict_set]
    is [d[k] = v]: it overwrites the value of a key already present. *)
Fixpoint dict_set (d : list (float * float)) (k v : float)
  : list (float * float) :=
  match d with
  | [] => [(k, v)]
  | (k', v') :: d' =>
      if feqb k' k then (k', v) :: d' else (k', v') :: dict_set d' k v
  end.

(** The dict display [{k1: v1, k2: v2, ...}]. *)
Definition dict_of (kvs : list (float * float)) : list (float * float) :=
  fold_left (fun d kv => dict_set d (fst kv) (snd kv)) kvs [].

(** [sum(d.values())] *)
Definition sum_values (d : list (float * float)) : float :=
  fold_left (fun acc kv => fadd acc (snd kv)) d fzero.

(** ** The abstract base class *)

Class AdditiveNoisePrivacyLoss (M : Type) : Type := {
  sensitivity : M -> float;
  discrete_noise : M -> bool;
  sampling_prob : M -> float;
  adjacency_type : M -> AdjacencyType;
  privacy_loss_without_subsampling : M -> pynum -> result float;
  inverse_privacy_loss_without_subsampling : M -> float -> result float;
  noise_cdf : M -> float -> result float;
  noise_log_cdf : M -> float -> result float
}.

(** The checks of [AdditiveNoisePrivacyLoss.__init__]. *)
Definition base_init (sensitivity sampling_prob : float) : result unit :=
  if fle sensitivity fzero then Raise ValueError
  else if fle sampling_prob fzero || fgt sampling_prob fone
       then Raise ValueError
       else Ok tt.

Section Generic.

Context {M : Type} `{AdditiveNoisePrivacyLoss M}.

Local Open Scope float_scope.

Definition mu_upper_cdf (m : M) (x : float) : result float :=
  match adjacency_type m with
  | ADD => noise_cdf m x
  | REMOVE =>
      if sampling_prob m ==? fone then noise_cdf m (x + sensitivity m)
      else
        a <- noise_cdf m x ;;
        b <- noise_cdf m (x + sensitivity m) ;;
        Ok ((fone - sampling_prob m) * a + sampling_prob m * b)
  end.

Definition mu_lower_log_cdf (m : M) (x : float) : result float :=
  match adjacency_type m with
  | ADD =>
      if sampling_prob m ==? fone then noise_log_cdf m (x + - sensitivity m)
      else
        a <- noise_log_cdf m x ;;
        b <- noise_log_cdf m (x + - sensitivity m) ;;
        Ok (np_logaddexp (np_log1p (- sampling_prob m) + a)
                         (np_log (sampling_prob m) + b))
  | REMOVE => noise_log_cdf m x
  end.

Definition privacy_loss (m : M) (x : pynum) : result float :=
  l <- privacy_loss_without_subsampling m x ;;
  if sampling_prob m ==? fone then Ok l
  else
    match adjacency_type m with
    | ADD =>
        Ok (- log_a_times_exp_b_plus_c (sampling_prob m) (- l)
                                       (fone - sampling_prob m))
    | REMOVE =>
        Ok (log_a_times_exp_b_plus_c (sampling_prob m) l
                                     (fone - sampling_prob m))
    end.

Definition inverse_privacy_loss (m : M) (privacy_loss : float)
  : result float :=
  if sampling_prob m ==? fone
  then inverse_privacy_loss_without_subsampling m privacy_loss
  else
    match adjacency_type m with
    | ADD =>
        t <- math_log (fone - sampling_prob m) ;;
        if math_isclose privacy_loss (- t)
        then inverse_privacy_loss_without_subsampling m PInf
        else if privacy_loss >? - t then Raise ValueError
        else
          a <- truediv fone (sampling_prob m) ;;
          inverse_privacy_loss_without_subsampling m
            (- log_a_times_exp_b_plus_c a (- privacy_loss) (fone - a))
    | REMOVE =>
        t <- math_log (fone - sampling_prob m) ;;
        if math_isclose privacy_loss t
        then inverse_privacy_loss_without_subsampling m NInf
        else if privacy_loss <=? t then Raise ValueError
        else
          a <- truediv fone (sampling_prob m) ;;
          inverse_privacy_loss_without_subsampling m
            (log_a_times_exp_b_plus_c a privacy_loss (fone - a))
    end.

(** The body of [get_delta_for_epsilon] on the array [epsilons].  A
    function that numpy applies to a whole array is applied here to
    its elements in order. *)
Definition get_delta_for_epsilons (m : M) (epsilons : list float)
  : result (list float) :=
  let deltas := map (fun _ => fzero) epsilons in
  masks <-
    (if sampling_prob m ==? fone
     then Ok (map (fun _ => true) epsilons, deltas)
     else
       match adjacency_type m with
       | ADD =>
           t <- math_log1p (- sampling_prob m) ;;
           Ok (map (fun e => e <? - t) epsilons, deltas)
       | REMOVE =>
           t <- math_log1p (- sampling_prob m) ;;
           let inverse_indices := map (fun e => e >? t) epsilons in
           let other_indices := map negb inverse_indices in
           Ok (inverse_indices,
               assign other_indices deltas
                 (map (fun e => - np_expm1 e)
                      (select other_indices epsilons)))
       end) ;;
  let inverse_indices := fst masks in
  let deltas := snd masks in
  x_cutoffs <-
    mapM (inverse_privacy_loss m) (select inverse_indices epsilons) ;;
  upper <- mapM (mu_upper_cdf m) x_cutoffs ;;
  lower <- mapM (mu_lower_log_cdf m) x_cutoffs ;;
  let deltas :=
    assign inverse_indices deltas
      (zip_with fsub upper
         (map fexp (zip_with fadd (select inverse_indices epsilons) lower)))
  in
  Ok (map (fun d => np_clip d fzero fone) deltas).

(** [get_delta_for_epsilon] on a scalar: the one-element array is
    processed and converted back with [float(deltas)]. *)
Definition get_delta_for_epsilon (m : M) (epsilon : float) : result float :=
  deltas <- get_delta_for_epsilons m [epsilon] ;;
  match deltas with
  | [d] => Ok d
  | _ => Raise TypeError
  end.

(** The cutoff formula that [get_delta_for_epsilon] applies to an epsilon
    selected by [inverse_indices], with the final clipping. *)
Definition cutoff_delta (m : M) (epsilon : float) : result float :=
  x <- inverse_privacy_loss m epsilon ;;
  u <- mu_upper_cdf m x ;;
  l <- mu_lower_log_cdf m x ;;
  Ok (np_clip (u - fexp (epsilon + l)) fzero fone).



End Generic.

(** ** [scipy.stats]

    A frozen distribution offers [cdf], [logcdf] and [ppf].  The library
    itself is a parameter of the development. *)

Record rv_frozen : Type := {
  cdf : float -> float;
  logcdf : float -> float;
  ppf : float -> float
}.

Class ScipyStats : Type := {
  (** [stats.laplace(scale=b)] *)
  stats_laplace : float -> rv_frozen;
  (** [stats.norm(scale=sigma)] *)
  stats_norm : float -> rv_frozen;
  (** [stats.dlaplace(a)] *)
  stats_dlaplace : float -> rv_frozen
}.

(** ** The Laplace mechanism *)

Module Laplace.

Record t : Type := {
  _parameter : float;
  _laplace_random_variable : rv_frozen;
  self_sensitivity : float;
  self_sampling_prob : float;
  self_adjacency_type : AdjacencyType
}.

Local Open Scope float_scope.

Definition init `{ScipyStats} (parameter sensitivity sampling_prob : float)
  (adjacency_type : AdjacencyType) : result t :=
  if parameter <=? fzero then Raise ValueError
  else
    _ <- base_init sensitivity sampling_prob ;;
    Ok {| _parameter := parameter;
          _laplace_random_variable := stats_laplace parameter;
          self_sensitivity := sensitivity;
          self_sampling_prob := sampling_prob;
          self_adjacency_type := adjacency_type |}.

Definition privacy_loss_without_subsampling (self : t) (x : pynum)
  : result float :=
  let x := to_float x in
  match self_adjacency_type self with
  | ADD =>
      truediv (fabs (x - self_sensitivity self) - fabs x) (_parameter self)
  | REMOVE =>
      truediv (fabs x - fabs (x + self_sensitivity self)) (_parameter self)
  end.

Definition inverse_privacy_loss_without_subsampling (self : t)
  (privacy_loss : float) : result float :=
  let loss_threshold := privacy_loss * _parameter self in
  if loss_threshold >? self_sensitivity self then Ok NInf
  else if loss_threshold <=? - self_sensitivity self then Ok PInf
  else
    match self_adjacency_type self with
    | ADD => Ok (fhalf * (self_sensitivity self - loss_threshold))
    | REMOVE => Ok (fhalf * (- self_sensitivity self - loss_threshold))
    end.

Definition noise_cdf (self : t) (x : float) : result float :=
  Ok (cdf (_laplace_random_variable self) x).

Definition noise_log_cdf (self : t) (x : float) : result float :=
  Ok (logcdf (_laplace_random_variable self) x).

#[global] Instance additive_noise : AdditiveNoisePrivacyLoss t :=
  Build_AdditiveNoisePrivacyLoss t
    self_sensitivity (fun _ => false) self_sampling_prob self_adjacency_type
    privacy_loss_without_subsampling
    inverse_privacy_loss_without_subsampling
    noise_cdf noise_log_cdf.

Definition privacy_loss_tail (self : t)
  : result TailPrivacyLossDistribution :=
  let '(lower_x_truncation, upper_x_truncation) :=
    match self_adjacency_type self with
    | ADD => (fzero, self_sensitivity self)
    | REMOVE => (- self_sensitivity self, fzero)
    end in
  k1 <- privacy_loss self (PyFloat lower_x_truncation) ;;
  v1 <- mu_upper_cdf self lower_x_truncation ;;
  k2 <- privacy_loss self (PyFloat upper_x_truncation) ;;
  v2 <- mu_upper_cdf self upper_x_truncation ;;
  Ok {| lower_x_truncation := lower_x_truncation;
        upper_x_truncation := upper_x_truncation;
        tail_probability_mass_function :=
          dict_of [(k1, v1); (k2, fone - v2)] |}.

Definition connect_dots_bounds (self : t) : result ConnectDotsBounds :=
  max_epsilon <- truediv (self_sensitivity self) (_parameter self) ;;
  if self_sampling_prob self ==? fone then
    Ok {| epsilon_upper := Some max_epsilon;
          epsilon_lower := Some (- max_epsilon);
          lower_x := None; upper_x := None |}
  else
    match self_adjacency_type self with
    | ADD =>
        u <- math_log (fone - self_sampling_prob self
                       + self_sampling_prob self * fexp (- max_epsilon)) ;;
        l <- math_log (fone - self_sampling_prob self
                       + self_sampling_prob self * fexp max_epsilon) ;;
        Ok {| epsilon_upper := Some (- u); epsilon_lower := Some (- l);
              lower_x := None; upper_x := None |}
    | REMOVE =>
        u <- math_log (fone - self_sampling_prob self
                       + self_sampling_prob self * fexp max_epsilon) ;;
        l <- math_log (fone - self_sampling_prob self
                       + self_sampling_prob self * fexp (- max_epsilon)) ;;
        Ok {| epsilon_upper := Some u; epsilon_lower := Some l;
              lower_x := None; upper_x := None |}
    end.

(** The classmethod [from_privacy_guarantee]; [np.exp], [np.log] and the
    divisions are numpy's. *)
Definition from_privacy_guarantee `{ScipyStats}
  (privacy_parameters : common.DifferentialPrivacyParameters)
  (sensitivity : float) (pessimistic_estimate : bool) (sampling_prob : float)
  (adjacency_type : AdjacencyType) : result t :=
  let epsilon := common.epsilon privacy_parameters in
  let parameter :=
    np_divide sensitivity
      (np_log (fone + np_divide (fexp epsilon - fone) sampling_prob)) in
  init parameter sensitivity sampling_prob adjacency_type.

Definition parameter (self : t) : float := _parameter self.

End Laplace.

(** ** The Gaussian mechanism *)

Module Gaussian.

Record t : Type := {
  _standard_deviation : float;
  _gaussian_random_variable : rv_frozen;
  _pessimistic_estimate : bool;
  _log_mass_truncation_bound : float;
  self_sensitivity : float;
  self_sampling_prob : float;
  self_adjacency_type : AdjacencyType
}.

Local Open Scope float_scope.

Definition init `{ScipyStats} (standard_deviation sensitivity : float)
  (pessimistic_estimate : bool) (log_mass_truncation_bound : float)
  (sampling_prob : float) (adjacency_type : AdjacencyType) : result t :=
  if standard_deviation <=? fzero then Raise ValueError
  else if log_mass_truncation_bound >? fzero then Raise ValueError
  else
    _ <- base_init sensitivity sampling_prob ;;
    Ok {| _standard_deviation := standard_deviation;
          _gaussian_random_variable := stats_norm standard_deviation;
          _pessimistic_estimate := pessimistic_estimate;
          _log_mass_truncation_bound := log_mass_truncation_bound;
          self_sensitivity := sensitivity;
          self_sampling_prob := sampling_prob;
          self_adjacency_type := adjacency_type |}.

Definition privacy_loss_without_subsampling (self : t) (x : pynum)
  : result float :=
  let x := to_float x in
  let variance := _standard_deviation self * _standard_deviation self in
  match self_adjacency_type self with
  | ADD =>
      truediv (self_sensitivity self * (fhalf * self_sensitivity self - x))
              variance
  | REMOVE =>
      truediv
        (self_sensitivity self * (- fhalf * self_sensitivity self - x))
        variance
  end.

Definition inverse_privacy_loss_without_subsampling (self : t)
  (privacy_loss : float) : result float :=
  let variance := _standard_deviation self * _standard_deviation self in
  match self_adjacency_type self with
  | ADD =>
      d <- truediv (privacy_loss * variance) (self_sensitivity self) ;;
      Ok (fhalf * self_sensitivity self - d)
  | REMOVE =>
      d <- truediv (privacy_loss * variance) (self_sensitivity self) ;;
      Ok (- fhalf * self_sensitivity self - d)
  end.

Definition noise_cdf (self : t) (x : float) : result float :=
  Ok (cdf (_gaussian_random_variable self) x).

Definition noise_log_cdf (self : t) (x : float) : result float :=
  Ok (logcdf (_gaussian_random_variable self) x).

#[global] Instance additive_noise : AdditiveNoisePrivacyLoss t :=
  Build_AdditiveNoisePrivacyLoss t
    self_sensitivity (fun _ => false) self_sampling_prob self_adjacency_type
    privacy_loss_without_subsampling
    inverse_privacy_loss_without_subsampling
    noise_cdf noise_log_cdf.

Definition privacy_loss_tail (self : t)
  : result TailPrivacyLossDistribution :=
  let lower_x_truncation :=
    ppf (_gaussian_random_variable self)
        (fhalf * fexp (_log_mass_truncation_bound self)) in
  let upper_x_truncation := - lower_x_truncation in
  let '(lower_x_truncation, upper_x_truncation) :=
    match self_adjacency_type self with
    | ADD => (lower_x_truncation, upper_x_truncation + self_sensitivity self)
    | REMOVE =>
        (lower_x_truncation - self_sensitivity self, upper_x_truncation)
    end in
  tail_probability_mass_function <-
    (if _pessimistic_estimate self then
       v1 <- mu_upper_cdf self lower_x_truncation ;;
       k2 <- privacy_loss self (PyFloat upper_x_truncation) ;;
       v2 <- mu_upper_cdf self upper_x_truncation ;;
       Ok (dict_of [(PInf, v1); (k2, fone - v2)])
     else
       k1 <- privacy_loss self (PyFloat lower_x_truncation) ;;
       v1 <- mu_upper_cdf self lower_x_truncation ;;
       Ok (dict_of [(k1, v1)])) ;;
  Ok {| lower_x_truncation := lower_x_truncation;
        upper_x_truncation := upper_x_truncation;
        tail_probability_mass_function := tail_probability_mass_function |}.

Definition connect_dots_bounds (self : t) : result ConnectDotsBounds :=
  tail_pld <- privacy_loss_tail self ;;
  u <- privacy_loss self (PyFloat (lower_x_truncation tail_pld)) ;;
  l <- privacy_loss self (PyFloat (upper_x_truncation tail_pld)) ;;
  Ok {| epsilon_upper := Some u; epsilon_lower := Some l;
        lower_x := None; upper_x := None |}.

Definition standard_deviation (self : t) : float := _standard_deviation self.

End Gaussian.

(** ** The discrete Laplace mechanism *)

Module DiscreteLaplace.

Record t : Type := {
  _parameter : float;
  _discrete_laplace_random_variable : rv_frozen;
  self_sensitivity : Z;
  self_sampling_prob : float;
  self_adjacency_type : AdjacencyType
}.

Local Open Scope float_scope.

Definition init `{ScipyStats} (parameter : float) (sensitivity : pynum)
  (sampling_prob : float) (adjacency_type : AdjacencyType) : result t :=
  if parameter <=? fzero then Raise ValueError
  else
    match sensitivity with
    | PyFloat _ => Raise ValueError
    | PyInt s =>
        _ <- base_init (Fin (IZR s)) sampling_prob ;;
        Ok {| _parameter := parameter;
              _discrete_laplace_random_variable := stats_dlaplace parameter;
              self_sensitivity := s;
              self_sampling_prob := sampling_prob;
              self_adjacency_type := adjacency_type |}
    end.

Definition privacy_loss_without_subsampling (self : t) (x : pynum)
  : result float :=
  match x with
  | PyFloat _ => Raise ValueError
  | PyInt x =>
      match self_adjacency_type self with
      | ADD =>
          Ok (Fin (IZR (Z.abs (x - self_sensitivity self) - Z.abs x))
              * _parameter self)
      | REMOVE =>
          Ok (Fin (IZR (Z.abs x - Z.abs (x + self_sensitivity self)))
              * _parameter self)
      end
  end.

Definition inverse_privacy_loss_without_subsampling (self : t)
  (privacy_loss : float) : result float :=
  let sensitivity := Fin (IZR (self_sensitivity self)) in
  loss_threshold <- truediv privacy_loss (_parameter self) ;;
  if loss_threshold >? sensitivity then Ok NInf
  else if loss_threshold <=? - sensitivity then Ok PInf
  else
    match self_adjacency_type self with
    | ADD =>
        z <- math_floor (fhalf * (sensitivity - loss_threshold)) ;;
        Ok (Fin (IZR z))
    | REMOVE =>
        z <- math_floor (fhalf * (- sensitivity - loss_threshold)) ;;
        Ok (Fin (IZR z))
    end.

Definition noise_cdf (self : t) (x : float) : result float :=
  Ok (cdf (_discrete_laplace_random_variable self) x).

Definition noise_log_cdf (self : t) (x : float) : result float :=
  Ok (logcdf (_discrete_laplace_random_variable self) x).

#[global] Instance additive_noise : AdditiveNoisePrivacyLoss t :=
  Build_AdditiveNoisePrivacyLoss t
    (fun self => Fin (IZR (self_sensitivity self)))
    (fun _ => true) self_sampling_prob self_adjacency_type
    privacy_loss_without_subsampling
    inverse_privacy_loss_without_subsampling
    noise_cdf noise_log_cdf.

Definition privacy_loss_tail (self : t)
  : result TailPrivacyLossDistribution :=
  let '(lower_x_truncation, upper_x_truncation) :=
    match self_adjacency_type self with
    | ADD => (1, self_sensitivity self - 1)%Z
    | REMOVE => (1 - self_sensitivity self, - 1)%Z
    end in
  k1 <- privacy_loss self (PyInt (lower_x_truncation - 1)) ;;
  v1 <- mu_upper_cdf self (Fin (IZR (lower_x_truncation - 1))) ;;
  k2 <- privacy_loss self (PyInt (upper_x_truncation + 1)) ;;
  v2 <- mu_upper_cdf self (Fin (IZR upper_x_truncation)) ;;
  Ok {| lower_x_truncation := Fin (IZR lower_x_truncation);
        upper_x_truncation := Fin (IZR upper_x_truncation);
        tail_probability_mass_function :=
          dict_of [(k1, v1); (k2, fone - v2)] |}.

Definition connect_dots_bounds (self : t) : result ConnectDotsBounds :=
  let '(lower_x, upper_x) :=
    match self_adjacency_type self with
    | ADD => (0, self_sensitivity self)%Z
    | REMOVE => (- self_sensitivity self, 0)%Z
    end in
  Ok {| epsilon_upper := None; epsilon_lower := None;
        lower_x := Some lower_x; upper_x := Some upper_x |}.

(** The classmethod [from_privacy_guarantee]. *)
Definition from_privacy_guarantee `{ScipyStats}
  (privacy_parameters : common.DifferentialPrivacyParameters)
  (sensitivity : pynum) (sampling_prob : float)
  (adjacency_type : AdjacencyType) : result t :=
  match sensitivity with
  | PyFloat _ => Raise ValueError
  | PyInt s =>
      if (s <=? 0)%Z then Raise ValueError
      else if (sampling_prob <=? fzero) || math_isclose sampling_prob fzero
      then Raise ValueError
      else
        let epsilon := common.epsilon privacy_parameters in
        let parameter :=
          np_divide
            (np_log (fone + np_divide (fexp epsilon - fone) sampling_prob))
            (Fin (IZR s)) in
        init parameter sensitivity sampling_prob adjacency_type
  end.

Definition parameter (self : t) : float := _parameter self.

End DiscreteLaplace.

(** ** The discrete Gaussian mechanism *)

(** [np.arange(lo, hi)] on integers. *)
Definition np_arange (lo hi : Z) : list Z :=
  map (fun k => (lo + Z.of_nat k)%Z) (seq 0 (Z.to_nat (hi - lo))).

(** [np.logaddexp.accumulate]: the running [logaddexp] of an array. *)
Fixpoint accumulate_from (acc : float) (l : list float) : list float :=
  match l with
  | [] => []
  | a :: l' =>
      let acc' := np_logaddexp acc a in acc' :: accumulate_from acc' l'
  end.

Definition logaddexp_accumulate (l : list float) : list float :=
  match l with
  | [] => []
  | a :: l' => a :: accumulate_from a l'
  end.

(** [arr[i]] with Python's negative indices. *)
Definition py_index (arr : list float) (i : Z) : result float :=
  let n := Z.of_nat (length arr) in
  let j := if (i <? 0)%Z then (i + n)%Z else i in
  if (j <? 0)%Z then Raise IndexError
  else
    match nth_error arr (Z.to_nat j) with
    | Some v => Ok v
    | None => Raise IndexError
    end.

(** [enumerate(l)] *)
Definition enumerate {A : Type} (l : list A) : list (Z * A) :=
  combine (map Z.of_nat (seq 0 (length l))) l.

(** The builtin [sum], which starts from 0. *)
Definition py_sum (l : list float) : float := fold_left fadd l fzero.

Module DiscreteGaussian.

Record t : Type := {
  _sigma : float;
  _truncation_bound : Z;
  _offset : Z;
  _log_pmf_array : list float;
  _log_cdf_array : list float;
  _pmf_array : list float;
  _cdf_array : list float;
  self_sensitivity : Z;
  self_sampling_prob : float;
  self_adjacency_type : AdjacencyType
}.

Local Open Scope float_scope.

Definition init (sigma : float) (sensitivity : pynum)
  (truncation_bound : option Z) (sampling_prob : float)
  (adjacency_type : AdjacencyType) : result t :=
  if sigma <=? fzero then Raise ValueError
  else
    match sensitivity with
    | PyFloat _ => Raise ValueError
    | PyInt s =>
        bound <-
          match truncation_bound with
          | None => math_ceil (Fin (116 / 10) * sigma)
          | Some b => Ok b
          end ;;
        if (2 * bound <? s)%Z then Raise ValueError
        else
          let offset := (- 1 * bound - 1)%Z in
          let indices := np_arange (- 1 * bound) (bound + 1) in
          let log_pmf_array :=
            NInf ::
            map (fun i =>
                   np_divide (- fhalf * Fin (IZR (i * i))) (sigma * sigma))
                indices in
          let log_cdf_array := logaddexp_accumulate log_pmf_array in
          let log_pmf_array :=
            map (fun v => v - last log_cdf_array NaN) log_pmf_array in
          let log_cdf_array :=
            map (fun v => v - last log_cdf_array NaN) log_cdf_array in
          _ <- base_init (Fin (IZR s)) sampling_prob ;;
          Ok {| _sigma := sigma;
                _truncation_bound := bound;
                _offset := offset;
                _log_pmf_array := log_pmf_array;
                _log_cdf_array := log_cdf_array;
                _pmf_array := map fexp log_pmf_array;
                _cdf_array := map fexp log_cdf_array;
                self_sensitivity := s;
                self_sampling_prob := sampling_prob;
                self_adjacency_type := adjacency_type |}
    end.

Definition privacy_loss_without_subsampling_for_add (self : t) (x : pynum)
  : result float :=
  match x with
  | PyFloat _ => Raise ValueError
  | PyInt x =>
      if ((x <? - 1 * _truncation_bound self)
          || (x >? _truncation_bound self + self_sensitivity self))%Z
      then Raise ValueError
      else if (x >? _truncation_bound self)%Z then Ok NInf
      else if (x <? self_sensitivity self - _truncation_bound self)%Z
      then Ok PInf
      else
        truediv
          (Fin (IZR (self_sensitivity self))
           * (fhalf * Fin (IZR (self_sensitivity self)) - Fin (IZR x)))
          (_sigma self * _sigma self)
  end.

Definition privacy_loss_without_subsampling (self : t) (x : pynum)
  : result float :=
  match self_adjacency_type self with
  | ADD => privacy_loss_without_subsampling_for_add self x
  | REMOVE =>
      privacy_loss_without_subsampling_for_add self
        (padd_int x (self_sensitivity self))
  end.

Definition inverse_privacy_loss_without_subsampling_for_add (self : t)
  (privacy_loss : float) : result Z :=
  if privacy_loss ==? NInf then Ok (_truncation_bound self)
  else
    d <- truediv (privacy_loss * (_sigma self * _sigma self))
                 (Fin (IZR (self_sensitivity self))) ;;
    math_floor
      (np_clip (fhalf * Fin (IZR (self_sensitivity self)) - d)
         (Fin (IZR (self_sensitivity self - _truncation_bound self - 1)))
         (Fin (IZR (_truncation_bound self)))).

Definition inverse_privacy_loss_without_subsampling (self : t)
  (privacy_loss : float) : result float :=
  match self_adjacency_type self with
  | ADD =>
      z <- inverse_privacy_loss_without_subsampling_for_add
             self privacy_loss ;;
      Ok (Fin (IZR z))
  | REMOVE =>
      z <- inverse_privacy_loss_without_subsampling_for_add
             self privacy_loss ;;
      Ok (Fin (IZR (z - self_sensitivity self)))
  end.

(** The lookup shared by [noise_cdf] and [noise_log_cdf].  The integer
    conversion of a NaN has no defined value in numpy; the embedding
    raises [IndexError] there. *)
Definition lookup (self : t) (arr : list float) (x : float) : result float :=
  let clipped_x :=
    np_clip x (Fin (IZR (- 1 * _truncation_bound self - 1)))
              (Fin (IZR (_truncation_bound self))) in
  match clipped_x with
  | Fin r => py_index arr (Zfloor r - _offset self)
  | _ => Raise IndexError
  end.

Definition noise_cdf (self : t) (x : float) : result float :=
  lookup self (_cdf_array self) x.

Definition noise_log_cdf (self : t) (x : float) : result float :=
  lookup self (_log_cdf_array self) x.

#[global] Instance additive_noise : AdditiveNoisePrivacyLoss t :=
  Build_AdditiveNoisePrivacyLoss t
    (fun self => Fin (IZR (self_sensitivity self)))
    (fun _ => true) self_sampling_prob self_adjacency_type
    privacy_loss_without_subsampling
    inverse_privacy_loss_without_subsampling
    noise_cdf noise_log_cdf.

Definition privacy_loss_tail (self : t)
  : result TailPrivacyLossDistribution :=
  let '(lower_x_truncation, upper_x_truncation) :=
    match self_adjacency_type self with
    | ADD =>
        (if self_sampling_prob self ==? fone
         then (self_sensitivity self - _truncation_bound self)%Z
         else (- 1 * _truncation_bound self)%Z,
         _truncation_bound self)
    | REMOVE =>
        ((- 1 * _truncation_bound self)%Z,
         if self_sampling_prob self ==? fone
         then (_truncation_bound self - self_sensitivity self)%Z
         else _truncation_bound self)
    end in
  v <- mu_upper_cdf self (Fin (IZR (lower_x_truncation - 1))) ;;
  Ok {| lower_x_truncation := Fin (IZR lower_x_truncation);
        upper_x_truncation := Fin (IZR upper_x_truncation);
        tail_probability_mass_function := dict_of [(PInf, v)] |}.

Definition connect_dots_bounds (self : t) : result ConnectDotsBounds :=
  tail_pld <- privacy_loss_tail self ;;
  lo <- py_int (lower_x_truncation tail_pld) ;;
  hi <- py_int (upper_x_truncation tail_pld) ;;
  Ok {| epsilon_upper := None; epsilon_lower := None;
        lower_x := Some lo; upper_x := Some hi |}.

Definition standard_deviation (self : t) : result float :=
  math_sqrt
    (py_sum
       (map (fun ip => Fin (IZR ((fst ip + _offset self) ^ 2)) * snd ip)
            (enumerate (_pmf_array self)))).

End DiscreteGaussian.

(** The arrays that [DiscreteGaussianPrivacyLoss.__init__] computes for a
    given [sigma] and truncation bound. *)
Definition dg_log_pmf_raw (sigma : float) (bound : Z) : list float :=
  NInf ::
  map (fun i => np_divide (fmul (fneg fhalf) (Fin (IZR (i * i))))
                          (fmul sigma sigma))
      (np_arange (- 1 * bound) (bound + 1)).

Definition dg_log_cdf_raw (sigma : float) (bound : Z) : list float :=
  logaddexp_accumulate (dg_log_pmf_raw sigma bound).

Definition dg_log_pmf (sigma : float) (bound : Z) : list float :=
  map (fun v => fsub v (last (dg_log_cdf_raw sigma bound) NaN))
      (dg_log_pmf_raw sigma bound).

Definition dg_log_cdf (sigma : float) (bound : Z) : list float :=
  map (fun v => fsub v (last (dg_log_cdf_raw sigma bound) NaN))
      (dg_log_cdf_raw sigma bound).

(** The integers on which the truncated discrete Gaussian noise of an
    instance puts mass. *)
Definition noise_support (self : DiscreteGaussian.t) (x : Z) : bool :=
  ((- DiscreteGaussian._truncation_bound self <=? x)
   && (x <=? DiscreteGaussian._truncation_bound self))%Z.

(** The integers where one of the two compared distributions puts mass:
    the noise and its shift by the sensitivity, to the right under ADD and
    to the left under REMOVE. *)
Definition loss_support (self : DiscreteGaussian.t) (x : Z) : bool :=
  match DiscreteGaussian.self_adjacency_type self with
  | ADD =>
      noise_support self x
      || noise_support self (x - DiscreteGaussian.self_sensitivity self)
  | REMOVE =>
      noise_support self (x + DiscreteGaussian.self_sensitivity self)
      || noise_support self x
  end.

(** ** The four mechanisms as one variant *)

Inductive Mechanism : Type :=
| MLaplace (l : Laplace.t)
| MGaussian (g : Gaussian.t)
| MDiscreteLaplace (d : DiscreteLaplace.t)
| MDiscreteGaussian (d : DiscreteGaussian.t).

Definition mechanism_mu_upper_cdf (m : Mechanism) (x : float) : result float :=
  match m with
  | MLaplace l => mu_upper_cdf l x
  | MGaussian g => mu_upper_cdf g x
  | MDiscreteLaplace d => mu_upper_cdf d x
  | MDiscreteGaussian d => mu_upper_cdf d x
  end.

Definition mechanism_discrete_noise (m : Mechanism) : bool :=
  match m with
  | MLaplace l => discrete_noise l
  | MGaussian g => discrete_noise g
  | MDiscreteLaplace d => discrete_noise d
  | MDiscreteGaussian d => discrete_noise d
  end.

Definition mechanism_privacy_loss_tail (m : Mechanism)
  : result TailPrivacyLossDistribution :=
  match m with
  | MLaplace l => Laplace.privacy_loss_tail l
  | MGaussian g => Gaussian.privacy_loss_tail g
  | MDiscreteLaplace d => DiscreteLaplace.privacy_loss_tail d
  | MDiscreteGaussian d => DiscreteGaussian.privacy_loss_tail d
  end.

(** ** The mass accounted for by a tail

    The probability that [mu_upper] puts on [[lo, hi]]: the difference of
    its CDF at the two ends, taken just below [lo] when the noise lives on
    the integers. *)
Definition mass_inside (m : Mechanism) (lo hi : float) : result float :=
  u <- mechanism_mu_upper_cdf m hi ;;
  l <- mechanism_mu_upper_cdf m
         (if mechanism_discrete_noise m then fsub lo fone else lo) ;;
  Ok (fsub u l).

(** The sum of the values of the tail's mass function plus the mass inside
    its truncation interval. *)
Definition accounted_mass (m : Mechanism) : result float :=
  tail <- mechanism_privacy_loss_tail m ;;
  inside <- mass_inside m (lower_x_truncation tail) (upper_x_truncation tail) ;;
  Ok (fadd (sum_values (tail_probability_mass_function tail)) inside).

(** A frozen distribution whose CDF is a number at every number. *)
Definition finite_cdf (rv : rv_frozen) : Prop :=
  forall x : float, is_nan x = false -> is_finite (cdf rv x) = true.

(** The privacy loss as a function of the loss [l] without sub-sampling,
    for a sampling probability [q] that is a real number. *)
Definition fold_loss (q : R) (a : AdjacencyType) (l : R) : R :=
  match a with
  | ADD => - ln (q * exp (- l) + (1 - q))
  | REMOVE => ln (q * exp l + (1 - q))
  end.

(** The upper truncation point of the Gaussian tail when the quantile that
    starts the computation is [x0]. *)
Definition gaussian_upper_x (a : AdjacencyType) (x0 s : R) : float :=
  match a with
  | ADD => Fin (- x0 + s)
  | REMOVE => Fin (- x0)
  end.

(** ** A reference model of [scipy.stats]

    The theorems below hold for every [ScipyStats]; closed examples are
    evaluated on the distributions themselves: the Laplace and discrete
    Laplace CDFs in closed form, the normal CDF as the normalised integral
    of its density, and the quantile as the least point where the CDF
    reaches the given probability. *)

Definition std_laplace_cdf (x : R) : R :=
  if Rltb x 0 then exp x / 2 else 1 - exp (- x) / 2.

Definition dlaplace_cdf (a x : R) : R :=
  let k := IZR (Zfloor x) in
  if Rleb 0 k then 1 - exp (- a * k) / (exp a + 1)
  else exp (a * (k + 1)) / (exp a + 1).

Definition gauss_kernel (t : R) : R := exp (- (t * t) / 2).

Lemma gauss_kernel_continuity : continuity gauss_kernel.
Proof. unfold gauss_kernel. reg. Qed.

Lemma gauss_kernel_integrable (a b : R) : Riemann_integrable gauss_kernel a b.
Proof.
  destruct (Rle_dec a b) as [Hab | Hab].
  - apply continuity_implies_RiemannInt; [exact Hab |].
    intros x _. apply gauss_kernel_continuity.
  - apply RiemannInt_P1, continuity_implies_RiemannInt; [lra |].
    intros x _. apply gauss_kernel_continuity.
Qed.

(** The area under the kernel between [0] and [x]. *)
Definition gauss_area (x : R) : R := RiemannInt (gauss_kernel_integrable 0 x).

(** The area under the kernel over the positive half-line. *)
Definition gauss_half_mass : R :=
  epsilon (inhabits 0) (is_lub (fun y => exists x, y = gauss_area x)).


Definition std_normal_cdf (x : R) : R :=
  / 2 + gauss_area x / (2 * gauss_half_mass).

Definition quantile (F : R -> R) (p : R) : R :=
  epsilon (inhabits 0) (is_lub (fun x => F x < p)).

Definition cdf_of (F : R -> R) (x : float) : float :=
  match x with
  | NaN => NaN
  | NInf => Fin 0
  | Fin r => Fin (F r)
  | PInf => Fin 1
  end.

Definition ppf_of (F : R -> R) (p : float) : float :=
  match p with
  | Fin r =>
      if Rltb r 0 || Rltb 1 r then NaN
      else if Reqb r 0 then NInf
      else if Reqb r 1 then PInf
      else Fin (quantile F r)
  | _ => NaN
  end.

Definition frozen (F : R -> R) : rv_frozen :=
  {| cdf := cdf_of F;
     logcdf := fun x => np_log (cdf_of F x);
     ppf := ppf_of F |}.

Definition nan_rv : rv_frozen :=
  {| cdf := fun _ => NaN; logcdf := fun _ => NaN; ppf := fun _ => NaN |}.

(** A distribution [F0] with scale [s]: its CDF at [x] is [F0 (x / s)]. *)
Definition scaled (F0 : R -> R) (scale : float) : rv_frozen :=
  match scale with
  | Fin s => if Rltb 0 s then frozen (fun x => F0 (x / s)) else nan_rv
  | _ => nan_rv
  end.

Definition scipy_model : ScipyStats :=
  {| stats_laplace := scaled std_laplace_cdf;
     stats_norm := scaled std_normal_cdf;
     stats_dlaplace := fun a =>
       match a with
       | Fin a => if Rltb 0 a then frozen (dlaplace_cdf a) else nan_rv
       | _ => nan_rv
       end |}.

(** ** A concrete instance *)

(** [LaplacePrivacyLoss(1, sensitivity=1, sampling_prob=0.5,
    adjacency_type=ADD)] over the reference distributions. *)
Definition laplace_half_add : Laplace.t :=
  {| Laplace._parameter := Fin 1;
     Laplace._laplace_random_variable := @stats_laplace scipy_model (Fin 1);
     Laplace.self_sensitivity := Fin 1;
     Laplace.self_sampling_prob := Fin (1 / 2);
     Laplace.self_adjacency_type := ADD |}.

(** ** Closed forms and predicates of the statements *)

(** A probability, or the NaN that [np.clip] lets through. *)
Definition unit_or_nan (d : float) : Prop :=
  d = NaN \/ exists r : R, d = Fin r /\ 0 <= r <= 1.









(** [rv] is the Laplace distribution of scale [b]: its CDF is the closed
    form and its log-CDF the logarithm of that. *)
Definition laplace_distributed (rv : rv_frozen) (b : R) : Prop :=
  forall x : float,
    cdf rv x = cdf_of (fun t => std_laplace_cdf (t / b)) x /\
    logcdf rv x = np_log (cdf rv x).


(** What a check [x <= 0] lets through: a positive number, [+inf], or NaN. *)
Definition positive_or_nan (x : float) : bool := is_nan x || flt fzero x.

(** What the check [q <= 0 or q > 1] lets through. *)
Definition probability_or_nan (q : float) : bool :=
  is_nan q || (flt fzero q && fle q fone).


(** ** Binary64 numbers

    The second layer: [float64] is the binary64 format with the rounded
    operations of the processor. *)

Abbreviation float64 := PrimFloat.float.

Declare Scope float64_scope.
Delimit Scope float64_scope with f64.

Bind Scope float64_scope with PrimFloat.float.
Number Notation PrimFloat.float PrimFloat.parser PrimFloat.printer
  : float64_scope.
Notation "- x" := (PrimFloat.opp x) : float64_scope.
Notation "x + y" := (PrimFloat.add x y) : float64_scope.
Notation "x - y" := (PrimFloat.sub x y) : float64_scope.
Notation "x * y" := (PrimFloat.mul x y) : float64_scope.
Notation "x / y" := (PrimFloat.div x y) : float64_scope.
Notation "x <? y" := (PrimFloat.ltb x y) (at level 70, no associativity)
  : float64_scope.
Notation "x <=? y" := (PrimFloat.leb x y) (at level 70, no associativity)
  : float64_scope.
Notation "x =? y" := (PrimFloat.eqb x y) (at level 70, no associativity)
  : float64_scope.

#[local] Set Warnings "-inexact-float".

Module F64.

Local Open Scope float64_scope.

(** The conversion of an integer to a float, rounded to nearest. *)
Definition of_int (z : Z) : float64 :=
  FloatOps.SF2Prim
    (SpecFloat.binary_normalize FloatOps.prec FloatOps.emax z 0 false).

(** The floor and the ceiling of a finite float whose mantissa is [n] and
    whose exponent is [e]. *)
Definition floor_of (n e : Z) : Z :=
  if (0 <=? e)%Z then (n * 2 ^ e)%Z else (n / 2 ^ (- e))%Z.

Definition ceil_of (n e : Z) : Z := (- floor_of (- n) e)%Z.

(** [math.floor] and [math.ceil]. *)
Definition math_floor (a : float64) : result Z :=
  match FloatOps.Prim2SF a with
  | SpecFloat.S754_nan => Raise ValueError
  | SpecFloat.S754_infinity _ => Raise OverflowError
  | SpecFloat.S754_zero _ => Ok 0%Z
  | SpecFloat.S754_finite s m e =>
      Ok (floor_of (if s then Zneg m else Zpos m) e)
  end.

Definition math_ceil (a : float64) : result Z :=
  match FloatOps.Prim2SF a with
  | SpecFloat.S754_nan => Raise ValueError
  | SpecFloat.S754_infinity _ => Raise OverflowError
  | SpecFloat.S754_zero _ => Ok 0%Z
  | SpecFloat.S754_finite s m e =>
      Ok (ceil_of (if s then Zneg m else Zpos m) e)
  end.

(** Python's [/] on floats: a zero divisor raises. *)
Definition truediv (a b : float64) : result float64 :=
  if b =? 0 then Raise ZeroDivisionError else Ok (a / b).

(** The arithmetic of numpy's [int64] wraps around. *)
Definition int64 (z : Z) : Z := ((z + 2 ^ 63) mod 2 ^ 64 - 2 ^ 63)%Z.

(** The checks of [AdditiveNoisePrivacyLoss.__init__]; [nonpositive] is
    the outcome of [sensitivity <= 0]. *)
Definition base_init (nonpositive : bool) (sampling_prob : float64)
  : result unit :=
  if nonpositive then Raise ValueError
  else if (sampling_prob <=? 0) || (1 <? sampling_prob)
       then Raise ValueError
       else Ok tt.

(** The functions of the C library and of numpy that the code calls. *)
Class NumLib : Type := {
  (** C's [pow] *)
  libm_pow : float64 -> float64 -> float64;
  (** [np.exp] *)
  np_exp : float64 -> float64;
  (** [np.logaddexp] *)
  np_logaddexp : float64 -> float64 -> float64
}.

(** [x ** 2] on a Python float, as CPython's [float_pow] computes it: the
    special values first, then C's [pow], whose overflow raises. *)
Definition float_pow2 `{NumLib} (x : float64) : result float64 :=
  if PrimFloat.is_nan x then Ok x
  else if PrimFloat.is_infinity x then Ok (PrimFloat.abs x)
  else if x =? 0 then Ok 0
  else if PrimFloat.abs x =? 1 then Ok 1
  else
    let r := libm_pow (PrimFloat.abs x) 2 in
    if PrimFloat.is_infinity r then Raise OverflowError else Ok r.

(** [np.logaddexp.accumulate] *)
Fixpoint accumulate_from `{NumLib} (acc : float64) (l : list float64)
  : list float64 :=
  match l with
  | [] => []
  | a :: l' =>
      let acc' := np_logaddexp acc a in acc' :: accumulate_from acc' l'
  end.

Definition logaddexp_accumulate `{NumLib} (l : list float64) : list float64 :=
  match l with
  | [] => []
  | a :: l' => a :: accumulate_from a l'
  end.

Module Laplace.

Record t : Type := {
  _parameter : float64;
  self_sensitivity : float64;
  self_sampling_prob : float64;
  self_adjacency_type : AdjacencyType
}.

Definition init (parameter sensitivity sampling_prob : float64)
  (adjacency_type : AdjacencyType) : result t :=
  if parameter <=? 0 then Raise ValueError
  else
    _ <- base_init (sensitivity <=? 0) sampling_prob ;;
    Ok {| _parameter := parameter;
          self_sensitivity := sensitivity;
          self_sampling_prob := sampling_prob;
          self_adjacency_type := adjacency_type |}.

Definition privacy_loss_without_subsampling (self : t) (x : float64)
  : result float64 :=
  match self_adjacency_type self with
  | ADD =>
      truediv (PrimFloat.abs (x - self_sensitivity self) - PrimFloat.abs x)
              (_parameter self)
  | REMOVE =>
      truediv (PrimFloat.abs x - PrimFloat.abs (x + self_sensitivity self))
              (_parameter self)
  end.

Definition inverse_privacy_loss_without_subsampling (self : t)
  (privacy_loss : float64) : float64 :=
  let loss_threshold := privacy_loss * _parameter self in
  if self_sensitivity self <? loss_threshold then PrimFloat.neg_infinity
  else if loss_threshold <=? - self_sensitivity self then PrimFloat.infinity
  else
    match self_adjacency_type self with
    | ADD => 0.5 * (self_sensitivity self - loss_threshold)
    | REMOVE => 0.5 * (- self_sensitivity self - loss_threshold)
    end.

End Laplace.

Module DiscreteGaussian.

Record t : Type := {
  _sigma : float64;
  _truncation_bound : Z;
  _offset : Z;
  _log_pmf_array : list float64;
  _log_cdf_array : list float64;
  _pmf_array : list float64;
  _cdf_array : list float64;
  self_sensitivity : Z;
  self_sampling_prob : float64;
  self_adjacency_type : AdjacencyType
}.

(** [np.append(-np.inf, -0.5 * indices**2 / (sigma**2))], for
    [indices = np.arange(-bound, bound + 1)] and the value [variance] of
    [sigma**2]. *)
Definition log_pmf_raw (variance : float64) (bound : Z) : list float64 :=
  PrimFloat.neg_infinity ::
  map (fun i => (-0.5) * of_int (int64 (i * i)) / variance)
      (np_arange (- 1 * bound) (bound + 1)).

(** [np.logaddexp.accumulate] of that array and its last entry
    [log_cdf_array[-1]], by which both arrays are normalised. *)
Definition log_cdf_raw `{NumLib} (variance : float64) (bound : Z)
  : list float64 :=
  logaddexp_accumulate (log_pmf_raw variance bound).

Definition normaliser `{NumLib} (variance : float64) (bound : Z) : float64 :=
  last (log_cdf_raw variance bound) PrimFloat.nan.

Definition init `{NumLib} (sigma : float64) (sensitivity : pynum)
  (truncation_bound : option Z) (sampling_prob : float64)
  (adjacency_type : AdjacencyType) : result t :=
  if sigma <=? 0 then Raise ValueError
  else
    match sensitivity with
    | PyFloat _ => Raise ValueError
    | PyInt s =>
        bound <-
          match truncation_bound with
          | None => math_ceil (11.6 * sigma)
          | Some b => Ok b
          end ;;
        if (2 * bound <? s)%Z then Raise ValueError
        else
          let offset := (- 1 * bound - 1)%Z in
          variance <- float_pow2 sigma ;;
          let log_pmf_array :=
            map (fun v => v - normaliser variance bound)
                (log_pmf_raw variance bound) in
          let log_cdf_array :=
            map (fun v => v - normaliser variance bound)
                (log_cdf_raw variance bound) in
          _ <- base_init (s <=? 0)%Z sampling_prob ;;
          Ok {| _sigma := sigma;
                _truncation_bound := bound;
                _offset := offset;
                _log_pmf_array := log_pmf_array;
                _log_cdf_array := log_cdf_array;
                _pmf_array := map np_exp log_pmf_array;
                _cdf_array := map np_exp log_cdf_array;
                self_sensitivity := s;
                self_sampling_prob := sampling_prob;
                self_adjacency_type := adjacency_type |}
    end.

End DiscreteGaussian.

(** *** A reference implementation of the library functions

    The theorems hold for every [NumLib]; closed examples are evaluated
    on this one: [exp] and [log1p] by argument reduction and a power
    series, [logaddexp] as numpy defines it. *)

(** The integer nearest to a float (0 when there is none). *)
Definition nearest_int (x : float64) : Z :=
  match math_floor (x + 0.5) with Ok z => z | Raise _ => 0%Z end.

(** [1 + r/1 * (1 + r/2 * (1 + ... (1 + r/n)))] *)
Fixpoint exp_series (n : nat) (k r : float64) : float64 :=
  match n with
  | O => 1
  | S n' => 1 + r / k * exp_series n' (k + 1) r
  end.

Definition ln2_hi : float64 := 0x1.62e42feep-1.
Definition ln2_lo : float64 := 0x1.a39ef35793c76p-33.

Definition ref_exp (x : float64) : float64 :=
  if PrimFloat.is_nan x then x
  else if x <? -746 then 0
  else if 710 <? x then PrimFloat.infinity
  else
    let k := nearest_int (x / 0x1.62e42fefa39efp-1) in
    let r := x - of_int k * ln2_hi - of_int k * ln2_lo in
    FloatOps.Z.ldexp (exp_series 20 1 r) k.

(** [1/k + z2 * (1/(k+2) + z2 * ...)] *)
Fixpoint atanh_series (n : nat) (k z2 : float64) : float64 :=
  match n with
  | O => 1 / k
  | S n' => 1 / k + z2 * atanh_series n' (k + 2) z2
  end.

(** [log(u)] for a positive finite [u]. *)
Definition ref_log_pos (u : float64) : float64 :=
  let (m, e) := FloatOps.Z.frexp u in
  let '(m, e) := if m <? 0x1.6a09e667f3bcdp-1 then (2 * m, (e - 1)%Z)
                 else (m, e) in
  let z := (m - 1) / (m + 1) in
  of_int e * 0x1.62e42fefa39efp-1 + 2 * z * atanh_series 20 1 (z * z).

Definition ref_log1p (y : float64) : float64 :=
  if PrimFloat.is_nan y then y
  else if y <? -1 then PrimFloat.nan
  else if y =? -1 then PrimFloat.neg_infinity
  else if y =? PrimFloat.infinity then y
  else if (-0.5 <=? y) && (y <=? 1) then
    let z := y / (2 + y) in 2 * z * atanh_series 20 1 (z * z)
  else ref_log_pos (1 + y).

(** numpy's [npy_logaddexp]. *)
Definition ref_logaddexp (x y : float64) : float64 :=
  if x =? y then x + 0x1.62e42fefa39efp-1
  else
    let tmp := x - y in
    if 0 <? tmp then x + ref_log1p (ref_exp (- tmp))
    else if tmp <=? 0 then y + ref_log1p (ref_exp tmp)
    else tmp.

Definition reference : NumLib :=
  {| libm_pow := fun x y =>
       if y =? 2 then x * x else ref_exp (y * ref_log_pos x);
     np_exp := ref_exp;
     np_logaddexp := ref_logaddexp |}.

End F64.

(** * Facts *)

(** ** Boolean comparisons *)

Lemma Rltb_true (x y : R) : x < y -> Rltb x y = true.
Proof. unfold Rltb. destruct (Rlt_dec x y); tauto. Qed.

Lemma Rltb_false (x y : R) : ~ x < y -> Rltb x y = false.
Proof. unfold Rltb. destruct (Rlt_dec x y); tauto. Qed.

Lemma Rleb_true (x y : R) : x <= y -> Rleb x y = true.
Proof. unfold Rleb. destruct (Rle_dec x y); tauto. Qed.

Lemma Rleb_false (x y : R) : ~ x <= y -> Rleb x y = false.
Proof. unfold Rleb. destruct (Rle_dec x y); tauto. Qed.

Lemma Reqb_true (x y : R) : x = y -> Reqb x y = true.
Proof. unfold Reqb. destruct (Req_dec_T x y); tauto. Qed.

Lemma Reqb_false (x y : R) : x <> y -> Reqb x y = false.
Proof. unfold Reqb. destruct (Req_dec_T x y); tauto. Qed.

Lemma Rltb_iff (x y : R) : Rltb x y = true <-> x < y.
Proof.
  unfold Rltb.
  destruct (Rlt_dec x y); split; [tauto | tauto | discriminate | tauto].
Qed.

Lemma Reqb_iff (x y : R) : Reqb x y = true <-> x = y.
Proof.
  unfold Reqb.
  destruct (Req_dec_T x y); split; [tauto | tauto | discriminate | tauto].
Qed.

Lemma inf_times_pos (s : bool) (r : R) :
  0 < r -> inf_times s r = if s then PInf else NInf.
Proof.
  intros Hr. unfold inf_times.
  rewrite Reqb_false, Rltb_true by lra. now destruct s.
Qed.

Lemma inf_times_neg (s : bool) (r : R) :
  r < 0 -> inf_times s r = if s then NInf else PInf.
Proof.
  intros Hr. unfold inf_times.
  rewrite Reqb_false, Rltb_false by lra. now destruct s.
Qed.

(** Decide the comparisons of the goal that linear arithmetic settles. *)
Ltac Rbool_step :=
  match goal with
  | |- context [inf_times ?s ?r] =>
      first [ rewrite (inf_times_pos s r) by lra
            | rewrite (inf_times_neg s r) by lra ]
  | |- context [Rltb ?a ?b] =>
      first [ rewrite (Rltb_true a b) by lra
            | rewrite (Rltb_false a b) by lra ]
  | |- context [Rleb ?a ?b] =>
      first [ rewrite (Rleb_true a b) by lra
            | rewrite (Rleb_false a b) by lra ]
  | |- context [Reqb ?a ?b] =>
      first [ rewrite (Reqb_true a b) by lra
            | rewrite (Reqb_false a b) by lra ]
  end.

(** Evaluate float operations on constructors. *)
Ltac fcbn :=
  unfold fge, fgt, fle, fsub, np_clip, fzero, fone, fhalf;
  cbn [bind fadd fneg fabs fmul fexp np_expm1 to_float flt feqb is_nan
       is_finite fmax fmin truediv np_divide orb andb negb Bool.eqb
       padd_int math_floor math_ceil fst snd].

Tactic Notation "fcbn" "in" hyp(H) :=
  unfold fge, fgt, fle, fsub, np_clip, fzero, fone, fhalf in H;
  cbn [bind fadd fneg fabs fmul fexp np_expm1 to_float flt feqb is_nan
       is_finite fmax fmin truediv np_divide orb andb negb Bool.eqb
       padd_int math_floor math_ceil fst snd] in H.

Ltac fsimpl := repeat (progress fcbn || Rbool_step).

Lemma fle_Fin (x y : R) : fle (Fin x) (Fin y) = Rleb x y.
Proof.
  fcbn. unfold Rltb, Reqb, Rleb.
  destruct (Rlt_dec x y), (Req_dec_T x y), (Rle_dec x y);
    try reflexivity; exfalso; lra.
Qed.

Lemma bind_ok {A B : Type} (c : result A) (k : A -> result B) (b : B) :
  bind c k = Ok b -> exists a, c = Ok a /\ k a = Ok b.
Proof. destruct c as [a | e]; [now exists a | discriminate]. Qed.

(** ** The Laplace ramp *)

Section LaplaceFacts.

  Context {S : ScipyStats}.

(** The instance that [LaplacePrivacyLoss(b, sensitivity=s, sampling_prob=q,
    adjacency_type=a)] builds when its arguments are finite and valid. *)
Lemma laplace_init_ok (b s q : R) (a : AdjacencyType) :
  0 < b -> 0 < s -> 0 < q <= 1 ->
  Laplace.init (Fin b) (Fin s) (Fin q) a =
  Ok {| Laplace._parameter := Fin b;
        Laplace._laplace_random_variable := stats_laplace (Fin b);
        Laplace.self_sensitivity := Fin s;
        Laplace.self_sampling_prob := Fin q;
        Laplace.self_adjacency_type := a |}.
Proof.
  intros Hb Hs Hq. unfold Laplace.init, base_init. fsimpl. reflexivity.
Qed.

End LaplaceFacts.

Section LaplaceRamp.

  Context {S : ScipyStats}.

(** Without sub-sampling the privacy loss of a Laplace instance is the ramp
    of its docstring, for both adjacency types. *)
Lemma laplace_privacy_loss_unsampled (m : Laplace.t) (b s : R) (x : pynum)
  (r : R) :
  Laplace._parameter m = Fin b -> Laplace.self_sensitivity m = Fin s ->
  Laplace.self_sampling_prob m = Fin 1 -> b <> 0 -> to_float x = Fin r ->
  privacy_loss m x =
  Ok (Fin (match Laplace.self_adjacency_type m with
           | ADD => (Rabs (r - s) - Rabs r) / b
           | REMOVE => (Rabs r - Rabs (r + s)) / b
           end)).
Proof.
  intros Hb Hs Hq Hb0 Hx.
  unfold privacy_loss. cbn [privacy_loss_without_subsampling sampling_prob
    adjacency_type Laplace.additive_noise].
  unfold Laplace.privacy_loss_without_subsampling.
  rewrite Hb, Hs, Hq, Hx.
  destruct (Laplace.self_adjacency_type m); fsimpl; reflexivity.
Qed.

(** C2 (amended).  Laplace with parameter 1 and sensitivity 1, no
    sub-sampling.  Under REMOVE the loss at 0 and at 10 is -1, and the upper
    saturation value 1 is reached at -1; the pair of values 1 at 0 and -1 at
    10 is the one of ADD. *)
Theorem laplace_unit_ramp_values :
  exists add rem : Laplace.t,
    Laplace.init (Fin 1) (Fin 1) (Fin 1) ADD = Ok add /\
    Laplace.init (Fin 1) (Fin 1) (Fin 1) REMOVE = Ok rem /\
    privacy_loss rem (PyInt 0) = Ok (Fin (- 1)) /\
    privacy_loss rem (PyInt 10) = Ok (Fin (- 1)) /\
    privacy_loss rem (PyInt (- 1)) = Ok (Fin 1) /\
    privacy_loss add (PyInt 0) = Ok (Fin 1) /\
    privacy_loss add (PyInt 10) = Ok (Fin (- 1)).
Proof.
  do 2 eexists.
  split; [apply laplace_init_ok; lra |].
  split; [apply laplace_init_ok; lra |].
  repeat split;
    (erewrite laplace_privacy_loss_unsampled;
     [ | reflexivity | reflexivity | reflexivity | | reflexivity ];
     [ cbn [Laplace.self_adjacency_type]; do 2 f_equal;
       unfold Rabs; repeat destruct (Rcase_abs _); lra
     | lra ]).
Qed.

End LaplaceRamp.

(** C2, refuted as stated: with REMOVE adjacency the loss at 0 is -1, not
    1. *)
Lemma laplace_remove_loss_at_zero :
  exists m : Laplace.t,
    @Laplace.init scipy_model (Fin 1) (Fin 1) (Fin 1) REMOVE = Ok m /\
    privacy_loss m (PyInt 0) = Ok (Fin (- 1)) /\
    ~ (privacy_loss m (PyInt 0) = Ok (Fin 1) /\
       privacy_loss m (PyInt 10) = Ok (Fin (- 1))).
Proof.
  eexists. split; [apply laplace_init_ok; lra |].
  assert (H : forall m : Laplace.t, forall v w : R,
             privacy_loss m (PyInt 0) = Ok (Fin v) -> v <> w ->
             privacy_loss m (PyInt 0) <> Ok (Fin w)).
  { intros m v w -> Hvw Heq. injection Heq as Heq. now apply Hvw. }
  assert (Hv : privacy_loss
                 {| Laplace._parameter := Fin 1;
                    Laplace._laplace_random_variable :=
                      @stats_laplace scipy_model (Fin 1);
                    Laplace.self_sensitivity := Fin 1;
                    Laplace.self_sampling_prob := Fin 1;
                    Laplace.self_adjacency_type := REMOVE |} (PyInt 0)
               = Ok (Fin (- 1))).
  { erewrite laplace_privacy_loss_unsampled;
      [ | reflexivity | reflexivity | reflexivity | | reflexivity ];
      [ cbn [Laplace.self_adjacency_type]; do 2 f_equal;
        unfold Rabs; repeat destruct (Rcase_abs _); lra
      | lra ]. }
  split; [exact Hv |].
  intros [H1 _]. revert H1. apply (H _ _ _ Hv). lra.
Qed.

(** ** Constructors that succeed *)

Lemma base_init_inv (s q : float) :
  base_init s q = Ok tt ->
  fle s fzero = false /\ fle q fzero = false /\ fgt q fone = false.
Proof.
  unfold base_init.
  destruct (fle s fzero); [discriminate |].
  destruct (fle q fzero); [discriminate |].
  destruct (fgt q fone); [discriminate |]. auto.
Qed.

Lemma fle_zero_false_Fin (r : R) : fle (Fin r) fzero = false -> 0 < r.
Proof.
  unfold fzero. rewrite fle_Fin. intros H.
  destruct (Rle_dec r 0) as [Hle | Hnle]; [| lra].
  rewrite Rleb_true in H by exact Hle. discriminate.
Qed.

Section LaplaceInverse.

  Context {S : ScipyStats}.

Lemma laplace_init_inv (p s q : float) (a : AdjacencyType) (m : Laplace.t) :
  Laplace.init p s q a = Ok m ->
  fle p fzero = false /\ base_init s q = Ok tt /\
  m = {| Laplace._parameter := p;
         Laplace._laplace_random_variable := stats_laplace p;
         Laplace.self_sensitivity := s;
         Laplace.self_sampling_prob := q;
         Laplace.self_adjacency_type := a |}.
Proof.
  unfold Laplace.init.
  destruct (fle p fzero); [discriminate |].
  destruct (base_init s q) as [[] | e]; cbn [bind]; [| discriminate].
  intros H. injection H as <-. auto.
Qed.

End LaplaceInverse.

(** ** The sub-sampling algebra of the generic layer *)

Lemma flt_one_not_eq (q : float) : flt q fone = true -> feqb q fone = false.
Proof.
  destruct q as [| | r |]; unfold fone; cbn [flt feqb]; try reflexivity;
    try discriminate.
  intros H. apply Rltb_iff in H. apply Reqb_false. lra.
Qed.

Lemma feqb_one (q : float) : feqb q fone = true <-> q = Fin 1.
Proof.
  destruct q as [| | r |]; unfold fone; cbn [feqb];
    try (split; discriminate).
  rewrite Reqb_iff. split; [now intros -> | now intros [= ->]].
Qed.

Lemma log_a_times_exp_b_plus_c_Fin (a b c : R) :
  0 < a * exp b + c ->
  log_a_times_exp_b_plus_c (Fin a) (Fin b) (Fin c) = Fin (ln (a * exp b + c)).
Proof.
  intros H. unfold log_a_times_exp_b_plus_c, np_log. fcbn.
  now rewrite Rltb_false, Reqb_false by lra.
Qed.

Section GenericFacts.

  Context {M : Type} `{AdditiveNoisePrivacyLoss M}.

(** C4.  With [L] the loss without sub-sampling at [x]: when the sampling
    probability is 1 the privacy loss is [L] itself; when it is below 1 the
    loss is [-log_a_times_exp_b_plus_c(q, -L, 1-q)] under ADD and
    [log_a_times_exp_b_plus_c(q, L, 1-q)] under REMOVE, that is
    [-log(q*exp(-L) + (1-q))] and [log(q*exp(L) + (1-q))]. *)
Theorem privacy_loss_subsampling (m : M) (x : pynum) (L : float) :
  privacy_loss_without_subsampling m x = Ok L ->
  (feqb (sampling_prob m) fone = true -> privacy_loss m x = Ok L) /\
  (flt (sampling_prob m) fone = true ->
   privacy_loss m x =
   Ok (match adjacency_type m with
       | ADD => fneg (log_a_times_exp_b_plus_c (sampling_prob m) (fneg L)
                        (fsub fone (sampling_prob m)))
       | REMOVE => log_a_times_exp_b_plus_c (sampling_prob m) L
                     (fsub fone (sampling_prob m))
       end) /\
   forall q l : R,
     sampling_prob m = Fin q -> 0 < q -> L = Fin l ->
     privacy_loss m x =
     Ok (Fin (match adjacency_type m with
              | ADD => - ln (q * exp (- l) + (1 - q))
              | REMOVE => ln (q * exp l + (1 - q))
              end))).
Proof.
  intros HL. unfold privacy_loss. rewrite HL. cbn [bind].
  split.
  - now intros ->.
  - intros Hq. rewrite (flt_one_not_eq _ Hq).
    split; [now destruct (adjacency_type m) |].
    intros q l Eq Hq0 ->. rewrite Eq in *.
    unfold fone in Hq. cbn [flt] in Hq. apply Rltb_iff in Hq.
    destruct (adjacency_type m); fcbn.
    + pose proof (exp_pos (- l)).
      rewrite log_a_times_exp_b_plus_c_Fin by nra.
      fcbn. repeat f_equal; lra.
    + pose proof (exp_pos l).
      rewrite log_a_times_exp_b_plus_c_Fin by nra.
      repeat f_equal; lra.
Qed.

(** C7.  [mu_upper_cdf] is the noise CDF under ADD; under REMOVE it is the
    noise CDF at [x + sensitivity] when the sampling probability is 1 (no
    other evaluation takes place) and the mixture
    [(1-q)*noise_cdf(x) + q*noise_cdf(x + sensitivity)] otherwise, a formula
    whose value at [q = 1] is that of the simplified path.  Dually,
    [mu_lower_log_cdf] is the noise log-CDF under REMOVE; under ADD it is the
    noise log-CDF at [x - sensitivity] when the sampling probability is 1,
    and otherwise the [logaddexp] of [log1p(-q) + noise_log_cdf(x)] and
    [log(q) + noise_log_cdf(x - sensitivity)]. *)
Theorem mu_cdf_cases (m : M) (x : float) :
  (adjacency_type m = ADD -> mu_upper_cdf m x = noise_cdf m x) /\
  (adjacency_type m = REMOVE ->
   (feqb (sampling_prob m) fone = true ->
    mu_upper_cdf m x = noise_cdf m (fadd x (sensitivity m))) /\
   (feqb (sampling_prob m) fone = false ->
    mu_upper_cdf m x =
    (a <- noise_cdf m x ;;
     b <- noise_cdf m (fadd x (sensitivity m)) ;;
     Ok (fadd (fmul (fsub fone (sampling_prob m)) a)
              (fmul (sampling_prob m) b)))) /\
   (forall q a b : R,
      sampling_prob m = Fin q ->
      noise_cdf m x = Ok (Fin a) ->
      noise_cdf m (fadd x (sensitivity m)) = Ok (Fin b) ->
      mu_upper_cdf m x = Ok (Fin ((1 - q) * a + q * b)))) /\
  (adjacency_type m = REMOVE -> mu_lower_log_cdf m x = noise_log_cdf m x) /\
  (adjacency_type m = ADD ->
   (feqb (sampling_prob m) fone = true ->
    mu_lower_log_cdf m x = noise_log_cdf m (fsub x (sensitivity m))) /\
   (feqb (sampling_prob m) fone = false ->
    mu_lower_log_cdf m x =
    (a <- noise_log_cdf m x ;;
     b <- noise_log_cdf m (fsub x (sensitivity m)) ;;
     Ok (np_logaddexp (fadd (np_log1p (fneg (sampling_prob m))) a)
                      (fadd (np_log (sampling_prob m)) b))))).
Proof.
  unfold mu_upper_cdf, mu_lower_log_cdf, fsub.
  split; [now intros -> |].
  split.
  { intros ->. split; [now intros -> |]. split; [now intros -> |].
    intros q a b Hq Ha Hb. rewrite Hq, Ha, Hb.
    destruct (feqb (Fin q) fone) eqn:E.
    - apply feqb_one in E. injection E as ->. do 2 f_equal. lra.
    - reflexivity. }
  split; [now intros -> |].
  intros ->. split; now intros ->.
Qed.

End GenericFacts.

(** ** Inverse privacy loss and hockey-stick divergence *)

Lemma math_log_one_minus (q : R) :
  q < 1 -> math_log (fsub fone (Fin q)) = Ok (Fin (ln (1 - q))).
Proof.
  intros Hq. fcbn. unfold math_log. now rewrite Rltb_true by lra.
Qed.

Lemma math_log1p_neg (q : R) :
  q < 1 -> math_log1p (fneg (Fin q)) = Ok (Fin (ln (1 - q))).
Proof. intros Hq. unfold math_log1p. now apply math_log_one_minus. Qed.

Lemma truediv_one (q : R) :
  q <> 0 -> truediv fone (Fin q) = Ok (Fin (1 / q)).
Proof. intros Hq. fcbn. now rewrite !Reqb_false by lra. Qed.


Lemma exp_gt_of_gt_ln (l c : R) : 0 < c -> ln c < l -> c < exp l.
Proof.
  intros Hc Hl. rewrite <- (exp_ln c Hc). now apply exp_increasing.
Qed.


Lemma math_isclose_refl_Fin (x : R) : math_isclose (Fin x) (Fin x) = true.
Proof. unfold math_isclose. now rewrite Reqb_true. Qed.

Section InverseAndDelta.

  Context {M : Type} `{AdditiveNoisePrivacyLoss M}.

Lemma inverse_privacy_loss_subsampled (m : M) (q : R) (L : float) :
  sampling_prob m = Fin q -> 0 < q < 1 ->
  inverse_privacy_loss m L =
  match adjacency_type m with
  | ADD =>
      if math_isclose L (Fin (- ln (1 - q)))
      then inverse_privacy_loss_without_subsampling m PInf
      else if fgt L (Fin (- ln (1 - q))) then Raise ValueError
      else inverse_privacy_loss_without_subsampling m
             (fneg (log_a_times_exp_b_plus_c (Fin (1 / q)) (fneg L)
                      (Fin (1 - 1 / q))))
  | REMOVE =>
      if math_isclose L (Fin (ln (1 - q)))
      then inverse_privacy_loss_without_subsampling m NInf
      else if fle L (Fin (ln (1 - q))) then Raise ValueError
      else inverse_privacy_loss_without_subsampling m
             (log_a_times_exp_b_plus_c (Fin (1 / q)) L (Fin (1 - 1 / q)))
  end.
Proof.
  intros Hq Hq01. unfold inverse_privacy_loss. rewrite Hq.
  assert (E1 : feqb (Fin q) fone = false).
  { unfold fone. cbn [feqb]. apply Reqb_false. lra. }
  rewrite E1, math_log_one_minus, truediv_one by lra. cbn [bind fneg].
  reflexivity.
Qed.

Lemma inverse_privacy_loss_unsampled (m : M) (L : float) :
  sampling_prob m = Fin 1 ->
  inverse_privacy_loss m L = inverse_privacy_loss_without_subsampling m L.
Proof.
  intros Hq. unfold inverse_privacy_loss. rewrite Hq.
  unfold fone. cbn [feqb]. now rewrite Reqb_true.
Qed.

(** C3.  With sampling probability 1 the inverse is the mechanism's own.
    Below 1 and under ADD: a loss close to [-log(1-q)] is inverted at
    [+inf], a loss above it and not close raises [ValueError], and any other
    loss [L] is inverted at [-log_a_times_exp_b_plus_c(1/q, -L, 1-1/q)],
    which is [-log(1 + (exp(-L)-1)/q)].  Under REMOVE: a loss close to
    [log(1-q)] is inverted at [-inf], a loss below it and not close raises,
    and any other loss is inverted at [log(1 + (exp(L)-1)/q)]. *)
Theorem inverse_privacy_loss_cases (m : M) (q : R) (L : float) :
  sampling_prob m = Fin q -> 0 < q <= 1 ->
  (q = 1 ->
   inverse_privacy_loss m L = inverse_privacy_loss_without_subsampling m L) /\
  (q < 1 -> adjacency_type m = ADD ->
   (math_isclose L (Fin (- ln (1 - q))) = true ->
    inverse_privacy_loss m L =
    inverse_privacy_loss_without_subsampling m PInf) /\
   (math_isclose L (Fin (- ln (1 - q))) = false ->
    fgt L (Fin (- ln (1 - q))) = true ->
    inverse_privacy_loss m L = Raise ValueError) /\
   (math_isclose L (Fin (- ln (1 - q))) = false ->
    fgt L (Fin (- ln (1 - q))) = false ->
    inverse_privacy_loss m L =
    inverse_privacy_loss_without_subsampling m
      (fneg (log_a_times_exp_b_plus_c (Fin (1 / q)) (fneg L)
               (Fin (1 - 1 / q)))) /\
    forall l : R, L = Fin l ->
      inverse_privacy_loss m L =
      inverse_privacy_loss_without_subsampling m
        (Fin (- ln (1 + (exp (- l) - 1) / q))))) /\
  (q < 1 -> adjacency_type m = REMOVE ->
   (math_isclose L (Fin (ln (1 - q))) = true ->
    inverse_privacy_loss m L =
    inverse_privacy_loss_without_subsampling m NInf) /\
   (math_isclose L (Fin (ln (1 - q))) = false ->
    fle L (Fin (ln (1 - q))) = true ->
    inverse_privacy_loss m L = Raise ValueError) /\
   (math_isclose L (Fin (ln (1 - q))) = false ->
    fle L (Fin (ln (1 - q))) = false ->
    inverse_privacy_loss m L =
    inverse_privacy_loss_without_subsampling m
      (log_a_times_exp_b_plus_c (Fin (1 / q)) L (Fin (1 - 1 / q))) /\
    forall l : R, L = Fin l ->
      inverse_privacy_loss m L =
      inverse_privacy_loss_without_subsampling m
        (Fin (ln (1 + (exp l - 1) / q))))).
Proof.
  intros Hq Hq01.
  split; [| split].
  - intros ->. now apply inverse_privacy_loss_unsampled.
  - intros Hlt Hadj.
    rewrite (inverse_privacy_loss_subsampled m q L Hq) by lra.
    rewrite Hadj.
    split; [now intros -> |].
    split; [now intros -> -> |].
    intros Hc Hg. rewrite Hc, Hg. split; [reflexivity |].
    intros l ->. f_equal.
    assert (Hl : l < - ln (1 - q)).
    { destruct (Rlt_dec l (- ln (1 - q))) as [Hl | Hnl]; [exact Hl |].
      destruct (Req_dec_T l (- ln (1 - q))) as [-> | Hne].
      - now rewrite math_isclose_refl_Fin in Hc.
      - unfold fgt in Hg. cbn [flt] in Hg.
        rewrite Rltb_true in Hg by lra. discriminate. }
    assert (Hexp : 1 - q < exp (- l)) by (apply exp_gt_of_gt_ln; lra).
    assert (Hpos : 0 < 1 / q * exp (- l) + (1 - 1 / q)).
    { replace (1 / q * exp (- l) + (1 - 1 / q))
        with ((exp (- l) - (1 - q)) / q) by (field; lra).
      apply Rdiv_lt_0_compat; lra. }
    cbn [fneg]. rewrite log_a_times_exp_b_plus_c_Fin by exact Hpos.
    cbn [fneg]. do 3 f_equal. field. lra.
  - intros Hlt Hadj.
    rewrite (inverse_privacy_loss_subsampled m q L Hq) by lra.
    rewrite Hadj.
    split; [now intros -> |].
    split; [now intros -> -> |].
    intros Hc Hg. rewrite Hc, Hg. split; [reflexivity |].
    intros l ->. f_equal.
    assert (Hl : ln (1 - q) < l).
    { destruct (Rlt_dec (ln (1 - q)) l) as [Hl | Hnl]; [exact Hl |].
      rewrite fle_Fin, Rleb_true in Hg by lra. discriminate. }
    assert (Hexp : 1 - q < exp l) by (apply exp_gt_of_gt_ln; lra).
    assert (Hpos : 0 < 1 / q * exp l + (1 - 1 / q)).
    { replace (1 / q * exp l + (1 - 1 / q))
        with ((exp l - (1 - q)) / q) by (field; lra).
      apply Rdiv_lt_0_compat; lra. }
    rewrite log_a_times_exp_b_plus_c_Fin by exact Hpos.
    do 2 f_equal. field. lra.
Qed.

End InverseAndDelta.

Lemma np_clip_unit (d : float) : unit_or_nan (np_clip d fzero fone).
Proof.
  destruct d as [| | r |]; fcbn.
  - now left.
  - right. exists 0. fsimpl. split; [reflexivity | lra].
  - right. destruct (Rlt_dec r 0) as [H0 | H0].
    + rewrite (Rltb_true r 0) by exact H0. cbn [fmin flt].
      exists 0. fsimpl. split; [reflexivity | lra].
    + rewrite (Rltb_false r 0) by exact H0. cbn [fmin flt].
      destruct (Rlt_dec 1 r) as [H1 | H1].
      * rewrite Rltb_true by exact H1. exists 1. split; [reflexivity | lra].
      * rewrite Rltb_false by exact H1. exists r. split; [reflexivity | lra].
  - right. exists 1. split; [reflexivity | lra].
Qed.

Lemma np_clip_unit_id (r : R) :
  0 <= r <= 1 -> np_clip (Fin r) (Fin 0) (Fin 1) = Fin r.
Proof. intros Hr. fsimpl. reflexivity. Qed.

Lemma np_log_pos (A : R) : 0 < A -> np_log (Fin A) = Fin (ln A).
Proof. intros HA. unfold np_log. now rewrite Rltb_false, Reqb_false by lra. Qed.

Section Delta.

  Context {M : Type} `{AdditiveNoisePrivacyLoss M}.

Lemma get_delta_inverse_index (m : M) (epsilon : float)
  (masks : result (list bool * list float)) (d0 : float) :
  masks = Ok ([true], [d0]) ->
  (deltas <-
     (masks <- masks ;;
      let inverse_indices := fst masks in
      let deltas := snd masks in
      x_cutoffs <-
        mapM (inverse_privacy_loss m) (select inverse_indices [epsilon]) ;;
      upper <- mapM (mu_upper_cdf m) x_cutoffs ;;
      lower <- mapM (mu_lower_log_cdf m) x_cutoffs ;;
      let deltas :=
        assign inverse_indices deltas
          (zip_with fsub upper
             (map fexp
                (zip_with fadd (select inverse_indices [epsilon]) lower)))
      in
      Ok (map (fun d => np_clip d fzero fone) deltas)) ;;
   match deltas with
   | [d] => Ok d
   | _ => Raise TypeError
   end) = cutoff_delta m epsilon.
Proof.
  intros ->. unfold cutoff_delta.
  cbn [bind fst snd select mapM].
  destruct (inverse_privacy_loss m epsilon) as [x | e]; [| reflexivity].
  cbn [bind mapM].
  destruct (mu_upper_cdf m x) as [u | e]; [| reflexivity].
  cbn [bind mapM].
  destruct (mu_lower_log_cdf m x) as [l | e]; reflexivity.
Qed.

Lemma get_delta_other_index (m : M) (epsilon : float)
  (masks : result (list bool * list float)) (d0 : float) :
  masks = Ok ([false], [d0]) ->
  (deltas <-
     (masks <- masks ;;
      let inverse_indices := fst masks in
      let deltas := snd masks in
      x_cutoffs <-
        mapM (inverse_privacy_loss m) (select inverse_indices [epsilon]) ;;
      upper <- mapM (mu_upper_cdf m) x_cutoffs ;;
      lower <- mapM (mu_lower_log_cdf m) x_cutoffs ;;
      let deltas :=
        assign inverse_indices deltas
          (zip_with fsub upper
             (map fexp
                (zip_with fadd (select inverse_indices [epsilon]) lower)))
      in
      Ok (map (fun d => np_clip d fzero fone) deltas)) ;;
   match deltas with
   | [d] => Ok d
   | _ => Raise TypeError
   end) = Ok (np_clip d0 fzero fone).
Proof. intros ->. reflexivity. Qed.





Lemma get_delta_unsampled (m : M) (epsilon : float) :
  sampling_prob m = Fin 1 ->
  get_delta_for_epsilon m epsilon = cutoff_delta m epsilon.
Proof.
  intros Hq. unfold get_delta_for_epsilon, get_delta_for_epsilons.
  rewrite Hq. unfold fone at 1. cbn [feqb]. rewrite Reqb_true by reflexivity.
  eapply get_delta_inverse_index. reflexivity.
Qed.





End Delta.

(** ** Floor *)

Lemma Zfloor_bounds (r : R) : IZR (Zfloor r) <= r < IZR (Zfloor r) + 1.
Proof.
  unfold Zfloor. destruct (base_Int_part r) as [H1 H2]. lra.
Qed.

Lemma Zfloor_unique (r : R) (z : Z) : IZR z <= r < IZR z + 1 -> Zfloor r = z.
Proof.
  intros Hz. unfold Zfloor. symmetry. apply Int_part_spec. lra.
Qed.

Lemma Zfloor_IZR (z : Z) : Zfloor (IZR z) = z.
Proof. apply Zfloor_unique. lra. Qed.

Lemma Zfloor_minus_IZR (r : R) (z : Z) :
  Zfloor (r - IZR z) = (Zfloor r - z)%Z.
Proof.
  apply Zfloor_unique. rewrite minus_IZR.
  pose proof (Zfloor_bounds r). lra.
Qed.

(** ** ADD and REMOVE without sub-sampling *)

Section AdjacencySymmetry.

  Context {M : Type} `{AdditiveNoisePrivacyLoss M}.

(** When the REMOVE inverse is the ADD inverse shifted by the sensitivity,
    the two cutoff formulas read the noise CDFs at the same points. *)
Lemma delta_adjacency_symmetric (mA mR : M) :
  sampling_prob mA = Fin 1 -> sampling_prob mR = Fin 1 ->
  adjacency_type mA = ADD -> adjacency_type mR = REMOVE ->
  sensitivity mA = sensitivity mR ->
  (forall x, noise_cdf mA x = noise_cdf mR x) ->
  (forall x, noise_log_cdf mA x = noise_log_cdf mR x) ->
  (forall L,
     match inverse_privacy_loss_without_subsampling mA L with
     | Ok x =>
         exists x',
           inverse_privacy_loss_without_subsampling mR L = Ok x' /\
           fadd x' (sensitivity mR) = x /\
           fadd x (fneg (sensitivity mA)) = x'
     | Raise e => inverse_privacy_loss_without_subsampling mR L = Raise e
     end) ->
  forall epsilon,
    get_delta_for_epsilon mA epsilon = get_delta_for_epsilon mR epsilon.
Proof.
  intros HqA HqR HA HR Hs Hcdf Hlog Hinv epsilon.
  rewrite !get_delta_unsampled by assumption.
  unfold cutoff_delta.
  rewrite !inverse_privacy_loss_unsampled by assumption.
  specialize (Hinv epsilon).
  destruct (inverse_privacy_loss_without_subsampling mA epsilon) as [x | e].
  - destruct Hinv as (x' & -> & Hx & Hx'). cbn [bind].
    unfold mu_upper_cdf, mu_lower_log_cdf.
    rewrite HA, HR, HqA, HqR.
    unfold fone. cbn [feqb]. rewrite Reqb_true by reflexivity.
    rewrite Hx, Hx', Hcdf, Hlog. reflexivity.
  - rewrite Hinv. reflexivity.
Qed.

End AdjacencySymmetry.

Lemma half_shift (s : R) (t : float) :
  fadd (fmul fhalf (fsub (fneg (Fin s)) t)) (Fin s)
  = fmul fhalf (fsub (Fin s) t) /\
  fadd (fmul fhalf (fsub (Fin s) t)) (fneg (Fin s))
  = fmul fhalf (fsub (fneg (Fin s)) t).
Proof.
  destruct t as [| | t |]; fsimpl; split; try reflexivity; f_equal; lra.
Qed.

Lemma affine_shift (s : R) (d : float) :
  fadd (fsub (fmul (fneg fhalf) (Fin s)) d) (Fin s)
  = fsub (fmul fhalf (Fin s)) d /\
  fadd (fsub (fmul fhalf (Fin s)) d) (fneg (Fin s))
  = fsub (fmul (fneg fhalf) (Fin s)) d.
Proof.
  destruct d as [| | d |]; fsimpl; split; try reflexivity; f_equal; lra.
Qed.

(** ** What the constructors build *)

Section InitFacts.

  Context {S : ScipyStats}.

Lemma gaussian_init_inv (sd s : float) (pe : bool) (lb q : float)
  (a : AdjacencyType) (m : Gaussian.t) :
  Gaussian.init sd s pe lb q a = Ok m ->
  fle sd fzero = false /\ fgt lb fzero = false /\ base_init s q = Ok tt /\
  m = {| Gaussian._standard_deviation := sd;
         Gaussian._gaussian_random_variable := stats_norm sd;
         Gaussian._pessimistic_estimate := pe;
         Gaussian._log_mass_truncation_bound := lb;
         Gaussian.self_sensitivity := s;
         Gaussian.self_sampling_prob := q;
         Gaussian.self_adjacency_type := a |}.
Proof.
  unfold Gaussian.init.
  destruct (fle sd fzero); [discriminate |].
  destruct (fgt lb fzero); [discriminate |].
  destruct (base_init s q) as [[] | e]; cbn [bind]; [| discriminate].
  intros H. injection H as <-. auto.
Qed.

Lemma discrete_laplace_init_inv (p : float) (s : pynum) (q : float)
  (a : AdjacencyType) (m : DiscreteLaplace.t) :
  DiscreteLaplace.init p s q a = Ok m ->
  exists z : Z,
    s = PyInt z /\ fle p fzero = false /\ base_init (Fin (IZR z)) q = Ok tt /\
    m = {| DiscreteLaplace._parameter := p;
           DiscreteLaplace._discrete_laplace_random_variable :=
             stats_dlaplace p;
           DiscreteLaplace.self_sensitivity := z;
           DiscreteLaplace.self_sampling_prob := q;
           DiscreteLaplace.self_adjacency_type := a |}.
Proof.
  unfold DiscreteLaplace.init.
  destruct (fle p fzero); [discriminate |].
  destruct s as [z | f]; [| discriminate].
  destruct (base_init (Fin (IZR z)) q) as [[] | e] eqn:Eb; cbn [bind];
    [| discriminate].
  intros H. injection H as <-. exists z.
  repeat split; try reflexivity; assumption.
Qed.

End InitFacts.

Lemma discrete_gaussian_init_inv (sigma : float) (s : pynum)
  (tb : option Z) (q : float) (a : AdjacencyType) (m : DiscreteGaussian.t) :
  DiscreteGaussian.init sigma s tb q a = Ok m ->
  exists z bound : Z,
    s = PyInt z /\ fle sigma fzero = false /\
    match tb with
    | None => math_ceil (fmul (Fin (116 / 10)) sigma)
    | Some b => Ok b
    end = Ok bound /\
    (2 * bound <? z)%Z = false /\
    base_init (Fin (IZR z)) q = Ok tt /\
    m = {| DiscreteGaussian._sigma := sigma;
           DiscreteGaussian._truncation_bound := bound;
           DiscreteGaussian._offset := (- 1 * bound - 1)%Z;
           DiscreteGaussian._log_pmf_array := dg_log_pmf sigma bound;
           DiscreteGaussian._log_cdf_array := dg_log_cdf sigma bound;
           DiscreteGaussian._pmf_array := map fexp (dg_log_pmf sigma bound);
           DiscreteGaussian._cdf_array := map fexp (dg_log_cdf sigma bound);
           DiscreteGaussian.self_sensitivity := z;
           DiscreteGaussian.self_sampling_prob := q;
           DiscreteGaussian.self_adjacency_type := a |}.
Proof.
  unfold DiscreteGaussian.init.
  destruct (fle sigma fzero); [discriminate |].
  destruct s as [z | f]; [| discriminate].
  destruct (match tb with
            | None => math_ceil (fmul (Fin (116 / 10)) sigma)
            | Some b => Ok b
            end) as [bound | e]; cbn [bind]; [| discriminate].
  destruct (2 * bound <? z)%Z eqn:E; [discriminate |].
  destruct (base_init (Fin (IZR z)) q) as [[] | e] eqn:Eb; cbn [bind];
    [| discriminate].
  intros H. injection H as <-. exists z, bound.
  repeat split; try reflexivity; assumption.
Qed.

(** ** Equal divergence for ADD and REMOVE at sampling probability 1 *)

Section SameDelta.

  Context {S : ScipyStats}.

Lemma laplace_same_delta (b : float) (s : R) (mA mR : Laplace.t) :
  Laplace.init b (Fin s) (Fin 1) ADD = Ok mA ->
  Laplace.init b (Fin s) (Fin 1) REMOVE = Ok mR ->
  forall epsilon,
    get_delta_for_epsilon mA epsilon = get_delta_for_epsilon mR epsilon.
Proof.
  intros HA HR.
  apply laplace_init_inv in HA as (_ & _ & ->).
  apply laplace_init_inv in HR as (_ & _ & ->).
  apply delta_adjacency_symmetric; try reflexivity.
  intros L.
  cbn [inverse_privacy_loss_without_subsampling sensitivity
       Laplace.additive_noise].
  unfold Laplace.inverse_privacy_loss_without_subsampling.
  cbn [Laplace._parameter Laplace.self_sensitivity
       Laplace.self_adjacency_type].
  destruct (fgt (fmul L b) (Fin s)).
  { exists NInf. repeat split; reflexivity. }
  destruct (fle (fmul L b) (fneg (Fin s))).
  { exists PInf. repeat split; reflexivity. }
  eexists. split; [reflexivity |]. apply half_shift.
Qed.

Lemma gaussian_same_delta (sd : float) (s : R) (pe : bool) (lb : float)
  (mA mR : Gaussian.t) :
  Gaussian.init sd (Fin s) pe lb (Fin 1) ADD = Ok mA ->
  Gaussian.init sd (Fin s) pe lb (Fin 1) REMOVE = Ok mR ->
  forall epsilon,
    get_delta_for_epsilon mA epsilon = get_delta_for_epsilon mR epsilon.
Proof.
  intros HA HR.
  apply gaussian_init_inv in HA as (_ & _ & _ & ->).
  apply gaussian_init_inv in HR as (_ & _ & _ & ->).
  apply delta_adjacency_symmetric; try reflexivity.
  intros L.
  cbn [inverse_privacy_loss_without_subsampling sensitivity
       Gaussian.additive_noise].
  unfold Gaussian.inverse_privacy_loss_without_subsampling.
  cbn [Gaussian._standard_deviation Gaussian.self_sensitivity
       Gaussian.self_adjacency_type].
  destruct (truediv (fmul L (fmul sd sd)) (Fin s)) as [d | e];
    cbn [bind]; [| reflexivity].
  eexists. split; [reflexivity |]. apply affine_shift.
Qed.

Lemma discrete_laplace_same_delta (p : float) (s : pynum)
  (mA mR : DiscreteLaplace.t) :
  DiscreteLaplace.init p s (Fin 1) ADD = Ok mA ->
  DiscreteLaplace.init p s (Fin 1) REMOVE = Ok mR ->
  forall epsilon,
    get_delta_for_epsilon mA epsilon = get_delta_for_epsilon mR epsilon.
Proof.
  intros HA HR.
  apply discrete_laplace_init_inv in HA as (z & -> & _ & _ & ->).
  apply discrete_laplace_init_inv in HR as (z' & [= <-] & _ & _ & ->).
  apply delta_adjacency_symmetric; try reflexivity.
  intros L.
  cbn [inverse_privacy_loss_without_subsampling sensitivity
       DiscreteLaplace.additive_noise].
  unfold DiscreteLaplace.inverse_privacy_loss_without_subsampling.
  cbn [DiscreteLaplace._parameter DiscreteLaplace.self_sensitivity
       DiscreteLaplace.self_adjacency_type].
  destruct (truediv L p) as [t | e]; cbn [bind]; [| reflexivity].
  destruct (fgt t (Fin (IZR z))).
  { exists NInf. repeat split; reflexivity. }
  destruct (fle t (fneg (Fin (IZR z)))) eqn:Ele.
  { exists PInf. repeat split; reflexivity. }
  destruct t as [| | t |]; fsimpl; try reflexivity.
  eexists. split; [reflexivity |].
  replace (1 / 2 * (- IZR z + - t)) with (1 / 2 * (IZR z + - t) - IZR z)
    by lra.
  rewrite Zfloor_minus_IZR.
  split; fcbn; f_equal; rewrite minus_IZR; lra.
Qed.

Lemma discrete_gaussian_same_delta (sigma : float) (s : pynum)
  (tb : option Z) (mA mR : DiscreteGaussian.t) :
  DiscreteGaussian.init sigma s tb (Fin 1) ADD = Ok mA ->
  DiscreteGaussian.init sigma s tb (Fin 1) REMOVE = Ok mR ->
  forall epsilon,
    get_delta_for_epsilon mA epsilon = get_delta_for_epsilon mR epsilon.
Proof.
  intros HA HR.
  apply discrete_gaussian_init_inv in HA
    as (z & bound & -> & _ & Hb & _ & _ & ->).
  apply discrete_gaussian_init_inv in HR
    as (z' & bound' & [= <-] & _ & Hb' & _ & _ & ->).
  rewrite Hb in Hb'. injection Hb' as <-.
  apply delta_adjacency_symmetric; try reflexivity.
  intros L.
  cbn [inverse_privacy_loss_without_subsampling sensitivity
       DiscreteGaussian.additive_noise].
  unfold DiscreteGaussian.inverse_privacy_loss_without_subsampling.
  cbn [DiscreteGaussian.self_adjacency_type].
  assert (E : DiscreteGaussian.inverse_privacy_loss_without_subsampling_for_add
                {| DiscreteGaussian._sigma := sigma;
                   DiscreteGaussian._truncation_bound := bound;
                   DiscreteGaussian._offset := (- 1 * bound - 1)%Z;
                   DiscreteGaussian._log_pmf_array := dg_log_pmf sigma bound;
                   DiscreteGaussian._log_cdf_array := dg_log_cdf sigma bound;
                   DiscreteGaussian._pmf_array :=
                     map fexp (dg_log_pmf sigma bound);
                   DiscreteGaussian._cdf_array :=
                     map fexp (dg_log_cdf sigma bound);
                   DiscreteGaussian.self_sensitivity := z;
                   DiscreteGaussian.self_sampling_prob := Fin 1;
                   DiscreteGaussian.self_adjacency_type := ADD |} L
              = DiscreteGaussian.inverse_privacy_loss_without_subsampling_for_add
                {| DiscreteGaussian._sigma := sigma;
                   DiscreteGaussian._truncation_bound := bound;
                   DiscreteGaussian._offset := (- 1 * bound - 1)%Z;
                   DiscreteGaussian._log_pmf_array := dg_log_pmf sigma bound;
                   DiscreteGaussian._log_cdf_array := dg_log_cdf sigma bound;
                   DiscreteGaussian._pmf_array :=
                     map fexp (dg_log_pmf sigma bound);
                   DiscreteGaussian._cdf_array :=
                     map fexp (dg_log_cdf sigma bound);
                   DiscreteGaussian.self_sensitivity := z;
                   DiscreteGaussian.self_sampling_prob := Fin 1;
                   DiscreteGaussian.self_adjacency_type := REMOVE |} L)
    by reflexivity.
  rewrite <- E.
  destruct (DiscreteGaussian.inverse_privacy_loss_without_subsampling_for_add
              _ L) as [x | e]; cbn [bind]; [| reflexivity].
  eexists. split; [reflexivity |].
  cbn [DiscreteGaussian.self_sensitivity fadd fneg].
  split; f_equal; rewrite minus_IZR; lra.
Qed.

(** C5.  With sampling probability 1, the ADD instance and the REMOVE
    instance of a mechanism built from the same noise parameters return the
    same [get_delta_for_epsilon] at every epsilon; this holds for each of
    the four mechanisms. *)
Theorem same_delta_for_add_and_remove :
  (forall (b : float) (s : R) (mA mR : Laplace.t),
     Laplace.init b (Fin s) (Fin 1) ADD = Ok mA ->
     Laplace.init b (Fin s) (Fin 1) REMOVE = Ok mR ->
     forall epsilon,
       get_delta_for_epsilon mA epsilon = get_delta_for_epsilon mR epsilon) /\
  (forall (sd : float) (s : R) (pe : bool) (lb : float) (mA mR : Gaussian.t),
     Gaussian.init sd (Fin s) pe lb (Fin 1) ADD = Ok mA ->
     Gaussian.init sd (Fin s) pe lb (Fin 1) REMOVE = Ok mR ->
     forall epsilon,
       get_delta_for_epsilon mA epsilon = get_delta_for_epsilon mR epsilon) /\
  (forall (p : float) (s : pynum) (mA mR : DiscreteLaplace.t),
     DiscreteLaplace.init p s (Fin 1) ADD = Ok mA ->
     DiscreteLaplace.init p s (Fin 1) REMOVE = Ok mR ->
     forall epsilon,
       get_delta_for_epsilon mA epsilon = get_delta_for_epsilon mR epsilon) /\
  (forall (sigma : float) (s : pynum) (tb : option Z)
          (mA mR : DiscreteGaussian.t),
     DiscreteGaussian.init sigma s tb (Fin 1) ADD = Ok mA ->
     DiscreteGaussian.init sigma s tb (Fin 1) REMOVE = Ok mR ->
     forall epsilon,
       get_delta_for_epsilon mA epsilon = get_delta_for_epsilon mR epsilon).
Proof.
  split; [exact laplace_same_delta |].
  split; [exact gaussian_same_delta |].
  split; [exact discrete_laplace_same_delta |].
  exact discrete_gaussian_same_delta.
Qed.

End SameDelta.

(** ** The generic layer at a concrete instance *)


Lemma laplace_half_add_loss_at_zero :
  privacy_loss_without_subsampling laplace_half_add (PyInt 0) = Ok (Fin 1).
Proof.
  cbn [privacy_loss_without_subsampling Laplace.additive_noise].
  unfold Laplace.privacy_loss_without_subsampling, laplace_half_add.
  cbn [Laplace.self_adjacency_type Laplace.self_sensitivity
       Laplace._parameter].
  fsimpl. do 2 f_equal.
  unfold Rabs; repeat destruct (Rcase_abs _); lra.
Qed.

(** C4 at [laplace_half_add] and the point 0, where the loss without
    sub-sampling is 1. *)
Lemma privacy_loss_subsampling_witness :
  privacy_loss_without_subsampling laplace_half_add (PyInt 0) = Ok (Fin 1) /\
  privacy_loss laplace_half_add (PyInt 0) =
  Ok (Fin (- ln (1 / 2 * exp (- (1)) + (1 - 1 / 2)))).
Proof.
  split; [exact laplace_half_add_loss_at_zero |].
  destruct (privacy_loss_subsampling laplace_half_add (PyInt 0) (Fin 1)
              laplace_half_add_loss_at_zero) as [_ Hsub].
  destruct Hsub as [_ Hval].
  - cbn [sampling_prob Laplace.additive_noise laplace_half_add
         Laplace.self_sampling_prob].
    fsimpl. reflexivity.
  - apply (Hval (1 / 2) 1); [reflexivity | lra | reflexivity].
Defined.

(** C3 at [laplace_half_add]: the loss [-log(1 - 1/2)] is inverted at
    [+inf]. *)
Lemma inverse_privacy_loss_cases_witness :
  sampling_prob laplace_half_add = Fin (1 / 2) /\ 0 < 1 / 2 <= 1 /\
  inverse_privacy_loss laplace_half_add (Fin (- ln (1 - 1 / 2))) =
  inverse_privacy_loss_without_subsampling laplace_half_add PInf.
Proof.
  split; [reflexivity |]. split; [lra |].
  destruct (@inverse_privacy_loss_cases Laplace.t Laplace.additive_noise
              laplace_half_add (1 / 2) (Fin (- ln (1 - 1 / 2))) eq_refl
              ltac:(lra))
    as (_ & Hadd & _).
  destruct (Hadd ltac:(lra) eq_refl) as [Hclose _].
  apply Hclose. apply math_isclose_refl_Fin.
Defined.

(** The cutoff formula at [laplace_half_add], at NaN and at 0. *)
Lemma laplace_half_add_cutoff_nan :
  (x <- inverse_privacy_loss laplace_half_add NaN ;;
   u <- mu_upper_cdf laplace_half_add x ;;
   l <- mu_lower_log_cdf laplace_half_add x ;;
   Ok (np_clip (fsub u (fexp (fadd NaN l))) fzero fone)) = Ok NaN.
Proof.
  unfold inverse_privacy_loss.
  cbn [sampling_prob Laplace.additive_noise laplace_half_add
       Laplace.self_sampling_prob adjacency_type Laplace.self_adjacency_type].
  fsimpl. unfold math_log. rewrite Rltb_true by lra.
  cbn [bind fneg math_isclose feqb flt].
  unfold log_a_times_exp_b_plus_c.
  cbn [fexp fmul fadd np_log fneg inverse_privacy_loss_without_subsampling
       Laplace.additive_noise].
  unfold Laplace.inverse_privacy_loss_without_subsampling.
  cbn [Laplace._parameter Laplace.self_sensitivity fmul fgt flt fle feqb fneg
       orb Laplace.self_adjacency_type fsub fadd bind laplace_half_add fhalf].
  unfold mu_upper_cdf, mu_lower_log_cdf.
  cbn [adjacency_type sampling_prob Laplace.additive_noise
       Laplace.self_adjacency_type Laplace.self_sampling_prob noise_cdf
       noise_log_cdf sensitivity laplace_half_add].
  unfold Laplace.noise_cdf, Laplace.noise_log_cdf.
  cbn [Laplace._laplace_random_variable laplace_half_add stats_laplace scipy_model].
  unfold scaled. rewrite Rltb_true by lra.
  cbn [cdf logcdf frozen cdf_of bind fadd fmax fmin np_log].
  now destruct (feqb (Fin (1 / 2)) fone).
Qed.





(** C1, refuted as stated: NaN is an epsilon in neither closed-form range,
    and the cutoff formula evaluates to NaN there; yet at [laplace_half_add],
    an ADD instance with sampling probability 1/2, the mask
    [epsilon < -log(1-q)] leaves it out and the delta returned is 0. *)
Lemma get_delta_for_epsilon_nan :
  adjacency_type laplace_half_add = ADD /\
  sampling_prob laplace_half_add = Fin (1 / 2) /\
  fge NaN (Fin (- ln (1 - 1 / 2))) = false /\
  fle NaN (Fin (- ln (1 - 1 / 2))) = false /\
  get_delta_for_epsilon laplace_half_add NaN = Ok (Fin 0) /\
  (x <- inverse_privacy_loss laplace_half_add NaN ;;
   u <- mu_upper_cdf laplace_half_add x ;;
   l <- mu_lower_log_cdf laplace_half_add x ;;
   Ok (np_clip (fsub u (fexp (fadd NaN l))) fzero fone)) = Ok NaN.
Proof.
  split; [reflexivity |]. split; [reflexivity |].
  split; [reflexivity |]. split; [reflexivity |].
  split; [| exact laplace_half_add_cutoff_nan].
  unfold get_delta_for_epsilon, get_delta_for_epsilons.
  cbn [sampling_prob Laplace.additive_noise laplace_half_add
       Laplace.self_sampling_prob adjacency_type Laplace.self_adjacency_type].
  unfold fone at 1. cbn [feqb]. rewrite Reqb_false by lra.
  erewrite get_delta_other_index.
  2:{ rewrite math_log1p_neg by lra. cbn [bind fneg map flt]. reflexivity. }
  fsimpl. reflexivity.
Qed.

(** ** Where the discrete losses are undefined *)

Lemma base_init_sensitivity_pos (z : Z) (q : float) :
  base_init (Fin (IZR z)) q = Ok tt -> (0 < z)%Z.
Proof.
  intros Hb. apply base_init_inv in Hb as (Hs & _).
  apply fle_zero_false_Fin in Hs. now apply lt_IZR.
Qed.

Lemma fmul_self_not_zero (sigma : float) :
  fle sigma fzero = false -> feqb (fmul sigma sigma) (Fin 0) = false.
Proof.
  destruct sigma as [| | r |]; try reflexivity.
  intros Hr. apply fle_zero_false_Fin in Hr.
  cbn [fmul feqb]. apply Reqb_false. nra.
Qed.

Lemma truediv_is_ok (a b : float) :
  feqb b (Fin 0) = false -> is_ok (truediv a b) = true.
Proof.
  destruct b as [| | r |]; try reflexivity.
  cbn [feqb truediv]. now intros ->.
Qed.

Lemma discrete_gaussian_loss_defined (sigma : float) (s : pynum)
  (tb : option Z) (q : float) (a : AdjacencyType) (m : DiscreteGaussian.t)
  (x : Z) :
  DiscreteGaussian.init sigma s tb q a = Ok m ->
  if loss_support m x
  then is_ok (DiscreteGaussian.privacy_loss_without_subsampling m (PyInt x))
       = true
  else DiscreteGaussian.privacy_loss_without_subsampling m (PyInt x)
       = Raise ValueError.
Proof.
  intros Hinit.
  apply discrete_gaussian_init_inv in Hinit
    as (z & bound & -> & Hsig & _ & Hb & Hbase & ->).
  apply base_init_sensitivity_pos in Hbase.
  apply Z.ltb_ge in Hb.
  unfold loss_support, noise_support,
    DiscreteGaussian.privacy_loss_without_subsampling,
    DiscreteGaussian.privacy_loss_without_subsampling_for_add.
  cbn [DiscreteGaussian.self_adjacency_type DiscreteGaussian._truncation_bound
       DiscreteGaussian.self_sensitivity DiscreteGaussian._sigma padd_int].
  pose proof (truediv_is_ok
    (fmul (Fin (IZR z)) (fsub (fmul fhalf (Fin (IZR z))) (Fin (IZR x))))
    (fmul sigma sigma) (fmul_self_not_zero sigma Hsig)) as HA.
  pose proof (truediv_is_ok
    (fmul (Fin (IZR z)) (fsub (fmul fhalf (Fin (IZR z))) (Fin (IZR (x + z)))))
    (fmul sigma sigma) (fmul_self_not_zero sigma Hsig)) as HR.
  destruct a.
  - destruct (x <? - 1 * bound)%Z eqn:E1; cbn [orb].
    { apply Z.ltb_lt in E1.
      replace ((- bound <=? x) && (x <=? bound)
               || (- bound <=? x - z) && (x - z <=? bound))%Z with false;
        [reflexivity |].
      symmetry. apply orb_false_iff. split; apply andb_false_iff; left;
        apply Z.leb_gt; lia. }
    apply Z.ltb_ge in E1.
    destruct (x >? bound + z)%Z eqn:E2.
    { apply Z.gtb_lt in E2.
      replace ((- bound <=? x) && (x <=? bound)
               || (- bound <=? x - z) && (x - z <=? bound))%Z with false;
        [reflexivity |].
      symmetry. apply orb_false_iff. split; apply andb_false_iff; right;
        apply Z.leb_gt; lia. }
    assert (E2' : (x <= bound + z)%Z).
    { destruct (Z.gtb_spec x (bound + z)); [discriminate | lia]. }
    replace ((- bound <=? x) && (x <=? bound)
             || (- bound <=? x - z) && (x - z <=? bound))%Z with true.
    2:{ symmetry. apply orb_true_iff.
        destruct (Z.le_gt_cases x bound).
        - left. apply andb_true_iff. split; apply Z.leb_le; lia.
        - right. apply andb_true_iff. split; apply Z.leb_le; lia. }
    destruct (x >? bound)%Z; [reflexivity |].
    destruct (x <? z - bound)%Z; [reflexivity | exact HA].
  - destruct (x + z <? - 1 * bound)%Z eqn:E1; cbn [orb].
    { apply Z.ltb_lt in E1.
      replace ((- bound <=? x + z) && (x + z <=? bound)
               || (- bound <=? x) && (x <=? bound))%Z with false;
        [reflexivity |].
      symmetry. apply orb_false_iff. split; apply andb_false_iff; left;
        apply Z.leb_gt; lia. }
    apply Z.ltb_ge in E1.
    destruct (x + z >? bound + z)%Z eqn:E2.
    { apply Z.gtb_lt in E2.
      replace ((- bound <=? x + z) && (x + z <=? bound)
               || (- bound <=? x) && (x <=? bound))%Z with false;
        [reflexivity |].
      symmetry. apply orb_false_iff. split; apply andb_false_iff; right;
        apply Z.leb_gt; lia. }
    assert (E2' : (x + z <= bound + z)%Z).
    { destruct (Z.gtb_spec (x + z) (bound + z)); [discriminate | lia]. }
    replace ((- bound <=? x + z) && (x + z <=? bound)
             || (- bound <=? x) && (x <=? bound))%Z with true.
    2:{ symmetry. apply orb_true_iff.
        destruct (Z.le_gt_cases (x + z) bound).
        - left. apply andb_true_iff. split; apply Z.leb_le; lia.
        - right. apply andb_true_iff. split; apply Z.leb_le; lia. }
    destruct (x + z >? bound)%Z; [reflexivity |].
    destruct (x + z <? z - bound)%Z; [reflexivity | exact HR].
Qed.

(** C8.  The loss without sub-sampling of a discrete mechanism raises
    [ValueError] at every point that is not an [int], 0.5 among them.  For
    the discrete Gaussian it also raises at every integer outside the
    support of the two compared distributions, and is defined at every
    integer inside it. *)
Theorem discrete_loss_undefined :
  (forall (m : DiscreteLaplace.t) (f : float),
     DiscreteLaplace.privacy_loss_without_subsampling m (PyFloat f)
     = Raise ValueError) /\
  (forall (m : DiscreteGaussian.t) (f : float),
     DiscreteGaussian.privacy_loss_without_subsampling m (PyFloat f)
     = Raise ValueError) /\
  (forall m : DiscreteLaplace.t,
     privacy_loss_without_subsampling m (PyFloat (Fin (1 / 2)))
     = Raise ValueError) /\
  (forall m : DiscreteGaussian.t,
     privacy_loss_without_subsampling m (PyFloat (Fin (1 / 2)))
     = Raise ValueError) /\
  (forall (sigma : float) (s : pynum) (tb : option Z) (q : float)
          (a : AdjacencyType) (m : DiscreteGaussian.t) (x : Z),
     DiscreteGaussian.init sigma s tb q a = Ok m ->
     (loss_support m x = false ->
      privacy_loss_without_subsampling m (PyInt x) = Raise ValueError) /\
     (loss_support m x = true ->
      is_ok (privacy_loss_without_subsampling m (PyInt x)) = true)).
Proof.
  assert (HG : forall (m : DiscreteGaussian.t) (f : float),
             DiscreteGaussian.privacy_loss_without_subsampling m (PyFloat f)
             = Raise ValueError).
  { intros m f. unfold DiscreteGaussian.privacy_loss_without_subsampling.
    now destruct (DiscreteGaussian.self_adjacency_type m). }
  split; [reflexivity |].
  split; [exact HG |].
  split; [reflexivity |].
  split; [intros m; apply HG |].
  intros sigma s tb q a m x Hinit.
  pose proof (discrete_gaussian_loss_defined sigma s tb q a m x Hinit) as Hx.
  cbn [privacy_loss_without_subsampling DiscreteGaussian.additive_noise].
  split; intros E; rewrite E in Hx; exact Hx.
Qed.

(** ** The arrays of the discrete Gaussian *)

Lemma np_arange_length (lo hi : Z) :
  length (np_arange lo hi) = Z.to_nat (hi - lo).
Proof. unfold np_arange. now rewrite length_map, length_seq. Qed.

Lemma accumulate_from_length (acc : float) (l : list float) :
  length (accumulate_from acc l) = length l.
Proof.
  revert acc. induction l as [| a l IH]; intros acc; cbn; [reflexivity |].
  now rewrite IH.
Qed.

Lemma logaddexp_accumulate_length (l : list float) :
  length (logaddexp_accumulate l) = length l.
Proof.
  destruct l as [| a l]; cbn; [reflexivity |].
  now rewrite accumulate_from_length.
Qed.

Lemma np_logaddexp_Fin_r (acc : float) (a : R) :
  acc = NInf \/ is_finite acc = true ->
  is_finite (np_logaddexp acc (Fin a)) = true.
Proof.
  pose proof (exp_pos a) as Ha.
  intros [-> | Hacc].
  - unfold np_logaddexp, np_log. fcbn.
    now rewrite Rltb_false, Reqb_false by lra.
  - destruct acc as [| | c |]; try discriminate.
    pose proof (exp_pos c) as Hc.
    unfold np_logaddexp, np_log. fcbn.
    now rewrite Rltb_false, Reqb_false by lra.
Qed.

Lemma accumulate_from_finite (acc : float) (l : list float) :
  acc = NInf \/ is_finite acc = true ->
  Forall (fun v => is_finite v = true) l ->
  Forall (fun v => is_finite v = true) (accumulate_from acc l).
Proof.
  revert acc.
  induction l as [| a l IH]; intros acc Hacc Hl; cbn [accumulate_from].
  - constructor.
  - inversion Hl as [| a' l' Ha Hl' E]; subst.
    destruct a as [| | a |]; try discriminate.
    pose proof (np_logaddexp_Fin_r acc a Hacc) as Hfin.
    constructor; [exact Hfin |].
    apply IH; [now right | exact Hl'].
Qed.

Lemma last_finite (l : list float) (d : float) :
  l <> [] -> Forall (fun v => is_finite v = true) l ->
  is_finite (last l d) = true.
Proof.
  induction l as [| a l IH]; intros Hne Hl; [congruence |].
  inversion Hl as [| a' l' Ha Hl' E]; subst.
  destruct l as [| b l]; [exact Ha |].
  change (is_finite (last (b :: l) d) = true).
  apply IH; [discriminate | exact Hl'].
Qed.

Lemma last_cons_nonempty {A : Type} (a : A) (l : list A) (d : A) :
  l <> [] -> last (a :: l) d = last l d.
Proof. destruct l; [congruence | reflexivity]. Qed.

Lemma last_map_nonempty {A B : Type} (f : A -> B) (l : list A) (d : A)
  (d' : B) :
  l <> [] -> last (map f l) d' = f (last l d).
Proof.
  induction l as [| a l IH]; intros Hne; [congruence |].
  destruct l as [| b l]; [reflexivity |].
  change (last (map f (b :: l)) d' = f (last (b :: l) d)).
  apply IH. discriminate.
Qed.

Lemma dg_log_pmf_raw_tail_finite (sigma : float) (bound : Z) :
  fle sigma fzero = false -> is_nan sigma = false ->
  Forall (fun v => is_finite v = true) (tl (dg_log_pmf_raw sigma bound)).
Proof.
  intros Hsig Hnan. unfold dg_log_pmf_raw. cbn [tl].
  apply Forall_map, Forall_forall. intros i _.
  destruct sigma as [| | r |]; try discriminate.
  - apply fle_zero_false_Fin in Hsig.
    fcbn. rewrite Reqb_false by nra. reflexivity.
  - reflexivity.
Qed.

Lemma dg_raw_length (sigma : float) (bound : Z) :
  (0 <= bound)%Z ->
  length (dg_log_pmf_raw sigma bound) = Z.to_nat (2 * bound + 2) /\
  length (dg_log_cdf_raw sigma bound) = Z.to_nat (2 * bound + 2).
Proof.
  intros Hb. unfold dg_log_cdf_raw.
  rewrite logaddexp_accumulate_length. unfold dg_log_pmf_raw.
  cbn [length]. rewrite length_map, np_arange_length.
  split; lia.
Qed.

Lemma dg_log_cdf_raw_last (sigma : float) (bound : Z) :
  (0 <= bound)%Z -> fle sigma fzero = false -> is_nan sigma = false ->
  is_finite (last (dg_log_cdf_raw sigma bound) NaN) = true.
Proof.
  intros Hb Hsig Hnan.
  pose proof (dg_log_pmf_raw_tail_finite sigma bound Hsig Hnan) as Hfin.
  pose proof (dg_raw_length sigma bound Hb) as [Hlen _].
  unfold dg_log_cdf_raw.
  destruct (dg_log_pmf_raw sigma bound) as [| a l] eqn:E.
  { cbn [length] in Hlen. lia. }
  assert (Ha : a = NInf) by (unfold dg_log_pmf_raw in E; congruence).
  subst a. cbn [tl] in Hfin. cbn [logaddexp_accumulate].
  assert (Hl : l <> []).
  { intros ->. cbn [length] in Hlen. lia. }
  assert (Hacc : accumulate_from NInf l <> []).
  { intros Hnil. apply Hl. apply length_zero_iff_nil.
    rewrite <- (accumulate_from_length NInf l), Hnil. reflexivity. }
  rewrite last_cons_nonempty by exact Hacc.
  apply last_finite; [exact Hacc |].
  apply accumulate_from_finite; [now left | exact Hfin].
Qed.

(** ** The code on binary64 numbers *)

Section Binary64.

Import SpecFloat FloatOps FloatAxioms.

Local Open Scope float64_scope.

(** A number: a zero or a finite non-zero float. *)
Definition sf_finite (x : spec_float) : bool :=
  match x with
  | S754_zero _ | S754_finite _ _ _ => true
  | _ => false
  end.

Lemma SFcompare_refl (x : spec_float) :
  x <> S754_nan -> SFcompare x x = Some Eq.
Proof.
  destruct x as [s | s | | s m e]; intros Hx; try congruence.
  - reflexivity.
  - now destruct s.
  - cbn. rewrite Z.compare_refl, Pos.compare_cont_refl. now destruct s.
Qed.

Lemma is_nan_spec (x : float64) :
  PrimFloat.is_nan x = match Prim2SF x with S754_nan => true | _ => false end.
Proof.
  unfold PrimFloat.is_nan. rewrite eqb_spec. unfold SFeqb.
  destruct (Prim2SF x) eqn:E; try reflexivity;
    rewrite SFcompare_refl by discriminate; reflexivity.
Qed.

Lemma is_infinity_spec (x : float64) :
  PrimFloat.is_infinity x =
  match Prim2SF x with S754_infinity _ => true | _ => false end.
Proof.
  unfold PrimFloat.is_infinity. rewrite eqb_spec, abs_spec.
  change (Prim2SF PrimFloat.infinity) with (S754_infinity false).
  now destruct (Prim2SF x).
Qed.

Lemma is_finite_spec (x : float64) :
  PrimFloat.is_finite x = sf_finite (Prim2SF x).
Proof.
  unfold PrimFloat.is_finite. rewrite is_nan_spec, is_infinity_spec.
  now destruct (Prim2SF x).
Qed.




Lemma f64_neg_infinity_sub_nan (x : float64) :
  PrimFloat.is_finite x = false ->
  PrimFloat.neg_infinity - x = PrimFloat.neg_infinity \/
  PrimFloat.is_nan (PrimFloat.neg_infinity - x) = true.
Proof.
  rewrite is_finite_spec, is_nan_spec, sub_spec. intros Hx.
  change (Prim2SF PrimFloat.neg_infinity) with (S754_infinity true).
  destruct (Prim2SF x) as [s | s | | s m e] eqn:E; try discriminate.
  - destruct s; [now right | left]. apply Prim2SF_inj.
    rewrite sub_spec, E. reflexivity.
  - now right.
Qed.



Section LaplaceInverse64.

Variables (b s q : float64) (a : AdjacencyType) (m : F64.Laplace.t).

Hypothesis Hinit : F64.Laplace.init b s q a = Ok m.


End LaplaceInverse64.



(** C10, refuted as stated.  For [LaplacePrivacyLoss(49, sensitivity=1)]
    the product [-(1 / 49) * 49] rounds to [-0.9999999999999999], above
    [-1], and the inverse at the loss [-(1 / 49)] is the finite number 1.
    For [LaplacePrivacyLoss(25, sensitivity=7)] the product [7 / 25 * 25]
    rounds to [7.000000000000001], above 7, and the inverse at the loss
    [7 / 25] is [-inf]. *)
Lemma laplace_inverse_boundary_rounding :
  (exists m : F64.Laplace.t,
     F64.Laplace.init 49 1 1 ADD = Ok m /\
     F64.Laplace.inverse_privacy_loss_without_subsampling m (- (1 / 49)) = 1)
  /\
  (exists m : F64.Laplace.t,
     F64.Laplace.init 25 7 1 ADD = Ok m /\
     F64.Laplace.inverse_privacy_loss_without_subsampling m (7 / 25)
     = PrimFloat.neg_infinity).
Proof.
  split; eexists; (split; [reflexivity |]); vm_compute; reflexivity.
Qed.

(** ** Two tail losses that are one key

    [LaplacePrivacyLoss(1e200, sensitivity=1e-200)]: the losses at the
    truncation points 0 and [sensitivity] are [0.0] and [-0.0], which are
    equal, so the dictionary of the tail has one entry. *)
Lemma laplace64_tail_losses_collide :
  exists (m : F64.Laplace.t) (k1 k2 : float64),
    F64.Laplace.init 1e200 1e-200 1 ADD = Ok m /\
    F64.Laplace.privacy_loss_without_subsampling m 0 = Ok k1 /\
    F64.Laplace.privacy_loss_without_subsampling m 1e-200 = Ok k2 /\
    (k1 =? k2) = true.
Proof.
  exists {| F64.Laplace._parameter := 1e200;
            F64.Laplace.self_sensitivity := 1e-200;
            F64.Laplace.self_sampling_prob := 1;
            F64.Laplace.self_adjacency_type := ADD |}, 0, (-0).
  repeat split; vm_compute; reflexivity.
Qed.

(** ** The arrays of the discrete Gaussian in binary64 *)

Section Arrays64.

Context {NL : F64.NumLib}.




End Arrays64.



(** C9, refuted as stated: [DiscreteGaussianPrivacyLoss(2.0**-600)].  The
    square of [sigma] underflows to 0, the log-PMF entry of the noise
    value 0 is [-0.0 / 0.0], and every entry of the four arrays is NaN. *)
Lemma discrete_gaussian_arrays_underflow :
  exists m : F64.DiscreteGaussian.t,
    @F64.DiscreteGaussian.init F64.reference 0x1p-600 (PyInt 1) None 1 REMOVE
    = Ok m /\
    F64.DiscreteGaussian._log_pmf_array m
    = [PrimFloat.nan; PrimFloat.nan; PrimFloat.nan; PrimFloat.nan] /\
    F64.DiscreteGaussian._log_cdf_array m
    = [PrimFloat.nan; PrimFloat.nan; PrimFloat.nan; PrimFloat.nan] /\
    F64.DiscreteGaussian._cdf_array m
    = [PrimFloat.nan; PrimFloat.nan; PrimFloat.nan; PrimFloat.nan].
Proof.
  eexists. split; [vm_compute; reflexivity |].
  repeat split.
Qed.

End Binary64.

(** ** The mass accounted for by the tails *)

Lemma fold_loss_strict (q : R) (a : AdjacencyType) (l1 l2 : R) :
  0 < q <= 1 -> l1 < l2 -> fold_loss q a l1 < fold_loss q a l2.
Proof.
  intros Hq Hl. unfold fold_loss. destruct a.
  - apply Ropp_lt_contravar.
    pose proof (exp_pos (- l2)) as H2.
    assert (exp (- l2) < exp (- l1)) by (apply exp_increasing; lra).
    apply ln_increasing; nra.
  - pose proof (exp_pos l1) as H1.
    assert (exp l1 < exp l2) by (now apply exp_increasing).
    apply ln_increasing; nra.
Qed.

Lemma fold_loss_unsampled (a : AdjacencyType) (l : R) : fold_loss 1 a l = l.
Proof.
  unfold fold_loss. destruct a.
  - replace (1 * exp (- l) + (1 - 1)) with (exp (- l)) by lra.
    rewrite ln_exp. lra.
  - replace (1 * exp l + (1 - 1)) with (exp l) by lra.
    apply ln_exp.
Qed.

Section TailFacts.

  Context {M : Type} {AN : AdditiveNoisePrivacyLoss M}.

Lemma privacy_loss_fold (m : M) (q : R) (x : pynum) (l : R) :
  sampling_prob m = Fin q -> 0 < q <= 1 ->
  privacy_loss_without_subsampling m x = Ok (Fin l) ->
  privacy_loss m x = Ok (Fin (fold_loss q (adjacency_type m) l)).
Proof.
  intros Hq Hq01 Hl. unfold privacy_loss. rewrite Hl, Hq. cbn [bind].
  destruct (Req_dec_T q 1) as [-> | Hne].
  - unfold fone. cbn [feqb]. rewrite Reqb_true by reflexivity.
    now rewrite fold_loss_unsampled.
  - unfold fone at 1. cbn [feqb]. rewrite Reqb_false by exact Hne.
    unfold fold_loss. destruct (adjacency_type m); fcbn.
    + pose proof (exp_pos (- l)).
      rewrite log_a_times_exp_b_plus_c_Fin by nra.
      fcbn. repeat f_equal; lra.
    + pose proof (exp_pos l).
      rewrite log_a_times_exp_b_plus_c_Fin by nra.
      repeat f_equal; lra.
Qed.

Lemma mu_upper_cdf_finite (m : M) (s q : R) (x : float) :
  sensitivity m = Fin s -> sampling_prob m = Fin q ->
  (forall y, is_nan y = false -> exists v, noise_cdf m y = Ok (Fin v)) ->
  is_nan x = false ->
  exists v, mu_upper_cdf m x = Ok (Fin v).
Proof.
  intros Hs Hq Hcdf Hx. unfold mu_upper_cdf. rewrite Hs, Hq.
  assert (Hxs : is_nan (fadd x (Fin s)) = false) by (now destruct x).
  destruct (Hcdf x Hx) as [v Hv].
  destruct (Hcdf _ Hxs) as [w Hw].
  destruct (adjacency_type m).
  - now exists v.
  - destruct (feqb (Fin q) fone).
    + now exists w.
    + rewrite Hv, Hw. cbn [bind]. fcbn. eexists. reflexivity.
Qed.

End TailFacts.

Lemma dict_of_two (k1 v1 k2 v2 : float) :
  feqb k1 k2 = false -> dict_of [(k1, v1); (k2, v2)] = [(k1, v1); (k2, v2)].
Proof. intros Hk. unfold dict_of. cbn. now rewrite Hk. Qed.

Lemma feqb_Fin_lt (x y : R) : y < x -> feqb (Fin x) (Fin y) = false.
Proof. intros Hxy. cbn [feqb]. apply Reqb_false. lra. Qed.

Lemma sum_values_two (k1 k2 : float) (v1 v2 : R) :
  fadd (sum_values [(k1, Fin v1); (k2, fsub fone (Fin v2))])
       (fsub (Fin v2) (Fin v1)) = Fin 1.
Proof. unfold sum_values. cbn [fold_left snd]. fcbn. f_equal. lra. Qed.

Lemma Rabs_shift_values (s : R) :
  0 < s ->
  Rabs (0 + - s) - Rabs 0 = s /\ Rabs (s + - s) - Rabs s = - s /\
  Rabs (- s) - Rabs (- s + s) = s /\ Rabs 0 - Rabs (0 + s) = - s.
Proof.
  intros Hs. unfold Rabs. repeat destruct (Rcase_abs _); lra.
Qed.

Lemma laplace_noise_cdf_finite (l : Laplace.t) :
  finite_cdf (Laplace._laplace_random_variable l) ->
  forall y, is_nan y = false -> exists v, noise_cdf l y = Ok (Fin v).
Proof.
  intros Hfin y Hy. specialize (Hfin y Hy).
  cbn [noise_cdf Laplace.additive_noise]. unfold Laplace.noise_cdf.
  destruct (cdf (Laplace._laplace_random_variable l) y) as [| | v |];
    try discriminate.
  now exists v.
Qed.

Lemma laplace_tail_accounted (l : Laplace.t) (b s q : R) :
  Laplace._parameter l = Fin b -> Laplace.self_sensitivity l = Fin s ->
  Laplace.self_sampling_prob l = Fin q ->
  0 < b -> 0 < s -> 0 < q <= 1 ->
  finite_cdf (Laplace._laplace_random_variable l) ->
  accounted_mass (MLaplace l) = Ok (Fin 1).
Proof.
  intros Hb Hs Hq Hb0 Hs0 Hq01 Hfin.
  destruct (Rabs_shift_values s Hs0) as (A1 & A2 & R1 & R2).
  assert (Hsb : 0 < s / b) by (now apply Rdiv_lt_0_compat).
  pose proof (laplace_noise_cdf_finite l Hfin) as Hcdf.
  assert (Hmu : forall x, is_nan x = false ->
                  exists v, mu_upper_cdf l x = Ok (Fin v)).
  { intros x Hx.
    now apply (mu_upper_cdf_finite (AN := Laplace.additive_noise)
                 l s q x Hs Hq Hcdf). }
  assert (Hpl : forall x r, to_float x = Fin r ->
            privacy_loss_without_subsampling l x =
            Ok (Fin (match Laplace.self_adjacency_type l with
                     | ADD => (Rabs (r + - s) - Rabs r) / b
                     | REMOVE => (Rabs r - Rabs (r + s)) / b
                     end))).
  { intros x r Hx.
    cbn [privacy_loss_without_subsampling Laplace.additive_noise].
    unfold Laplace.privacy_loss_without_subsampling.
    rewrite Hb, Hs, Hx.
    destruct (Laplace.self_adjacency_type l); fsimpl; reflexivity. }
  unfold accounted_mass, mass_inside.
  cbn [mechanism_privacy_loss_tail mechanism_mu_upper_cdf
       mechanism_discrete_noise discrete_noise Laplace.additive_noise].
  unfold Laplace.privacy_loss_tail. rewrite Hs.
  destruct (Laplace.self_adjacency_type l) eqn:Ha.
  - rewrite (privacy_loss_fold (AN := Laplace.additive_noise)
               l q (PyFloat fzero) _ Hq Hq01
               (Hpl (PyFloat fzero) 0 eq_refl)).
    rewrite (privacy_loss_fold (AN := Laplace.additive_noise)
               l q (PyFloat (Fin s)) _ Hq Hq01
               (Hpl (PyFloat (Fin s)) s eq_refl)).
    destruct (Hmu fzero eq_refl) as [v1 Hv1].
    destruct (Hmu (Fin s) eq_refl) as [v2 Hv2].
    rewrite Hv1, Hv2. cbn [bind lower_x_truncation upper_x_truncation
                           tail_probability_mass_function].
    rewrite Hv1, Hv2. cbn [bind].
    cbn [adjacency_type Laplace.additive_noise]. rewrite Ha, A1, A2.
    rewrite dict_of_two.
    + now rewrite sum_values_two.
    + apply feqb_Fin_lt. apply fold_loss_strict; [exact Hq01 |].
      unfold Rdiv. rewrite Ropp_mult_distr_l_reverse. fold (s / b). lra.
  - rewrite (privacy_loss_fold (AN := Laplace.additive_noise)
               l q (PyFloat (fneg (Fin s))) _ Hq Hq01
               (Hpl (PyFloat (fneg (Fin s))) (- s) eq_refl)).
    rewrite (privacy_loss_fold (AN := Laplace.additive_noise)
               l q (PyFloat fzero) _ Hq Hq01
               (Hpl (PyFloat fzero) 0 eq_refl)).
    destruct (Hmu (fneg (Fin s)) eq_refl) as [v1 Hv1].
    destruct (Hmu fzero eq_refl) as [v2 Hv2].
    rewrite Hv1, Hv2. cbn [bind lower_x_truncation upper_x_truncation
                           tail_probability_mass_function].
    rewrite Hv1, Hv2. cbn [bind].
    cbn [adjacency_type Laplace.additive_noise]. rewrite Ha, R1, R2.
    rewrite dict_of_two.
    + now rewrite sum_values_two.
    + apply feqb_Fin_lt. apply fold_loss_strict; [exact Hq01 |].
      unfold Rdiv. rewrite Ropp_mult_distr_l_reverse. fold (s / b). lra.
Qed.

Lemma fsub_IZR_one (z : Z) : fsub (Fin (IZR z)) fone = Fin (IZR (z - 1)).
Proof. fcbn. f_equal. rewrite minus_IZR. lra. Qed.

Lemma discrete_laplace_noise_cdf_finite (d : DiscreteLaplace.t) :
  finite_cdf (DiscreteLaplace._discrete_laplace_random_variable d) ->
  forall y, is_nan y = false -> exists v, noise_cdf d y = Ok (Fin v).
Proof.
  intros Hfin y Hy. specialize (Hfin y Hy).
  cbn [noise_cdf DiscreteLaplace.additive_noise].
  unfold DiscreteLaplace.noise_cdf.
  destruct (cdf (DiscreteLaplace._discrete_laplace_random_variable d) y)
    as [| | v |]; try discriminate.
  now exists v.
Qed.

Lemma discrete_laplace_tail_accounted (d : DiscreteLaplace.t) (a0 : R)
  (s : Z) (q : R) :
  DiscreteLaplace._parameter d = Fin a0 ->
  DiscreteLaplace.self_sensitivity d = s ->
  DiscreteLaplace.self_sampling_prob d = Fin q ->
  0 < a0 -> (0 < s)%Z -> 0 < q <= 1 ->
  finite_cdf (DiscreteLaplace._discrete_laplace_random_variable d) ->
  accounted_mass (MDiscreteLaplace d) = Ok (Fin 1).
Proof.
  intros Ha0 Hs Hq Ha Hs0 Hq01 Hfin.
  assert (HsR : 0 < IZR s) by (now apply IZR_lt).
  pose proof (discrete_laplace_noise_cdf_finite d Hfin) as Hcdf.
  assert (Hsens : sensitivity d = Fin (IZR s)).
  { cbn [sensitivity DiscreteLaplace.additive_noise]. now rewrite Hs. }
  assert (Hmu : forall x, is_nan x = false ->
                  exists v, mu_upper_cdf d x = Ok (Fin v)).
  { intros x Hx.
    now apply (mu_upper_cdf_finite (AN := DiscreteLaplace.additive_noise)
                 d (IZR s) q x Hsens Hq Hcdf). }
  assert (Hpl : forall x,
            privacy_loss_without_subsampling d (PyInt x) =
            Ok (Fin (IZR (match DiscreteLaplace.self_adjacency_type d with
                          | ADD => Z.abs (x - s) - Z.abs x
                          | REMOVE => Z.abs x - Z.abs (x + s)
                          end) * a0))).
  { intros x.
    cbn [privacy_loss_without_subsampling DiscreteLaplace.additive_noise].
    unfold DiscreteLaplace.privacy_loss_without_subsampling.
    rewrite Ha0, Hs.
    destruct (DiscreteLaplace.self_adjacency_type d); reflexivity. }
  assert (Hkeys : feqb (Fin (fold_loss q (adjacency_type d) (IZR s * a0)))
                       (Fin (fold_loss q (adjacency_type d) (IZR (- s) * a0)))
                  = false).
  { apply feqb_Fin_lt. apply fold_loss_strict; [exact Hq01 |].
    rewrite opp_IZR. nra. }
  unfold accounted_mass, mass_inside.
  cbn [mechanism_privacy_loss_tail mechanism_mu_upper_cdf
       mechanism_discrete_noise discrete_noise
       DiscreteLaplace.additive_noise].
  unfold DiscreteLaplace.privacy_loss_tail. rewrite Hs.
  destruct (DiscreteLaplace.self_adjacency_type d) eqn:Hadj.
  - rewrite (privacy_loss_fold (AN := DiscreteLaplace.additive_noise)
               d q _ _ Hq Hq01 (Hpl (1 - 1)%Z)).
    rewrite (privacy_loss_fold (AN := DiscreteLaplace.additive_noise)
               d q _ _ Hq Hq01 (Hpl (s - 1 + 1)%Z)).
    replace (Z.abs (1 - 1 - s) - Z.abs (1 - 1))%Z with s by lia.
    replace (Z.abs (s - 1 + 1 - s) - Z.abs (s - 1 + 1))%Z with (- s)%Z by lia.
    destruct (Hmu (Fin (IZR (1 - 1))) eq_refl) as [v1 Hv1].
    destruct (Hmu (Fin (IZR (s - 1))) eq_refl) as [v2 Hv2].
    rewrite Hv1, Hv2. cbn [bind lower_x_truncation upper_x_truncation
                           tail_probability_mass_function].
    rewrite fsub_IZR_one, Hv1, Hv2. cbn [bind].
    rewrite dict_of_two by exact Hkeys.
    now rewrite sum_values_two.
  - rewrite (privacy_loss_fold (AN := DiscreteLaplace.additive_noise)
               d q _ _ Hq Hq01 (Hpl (1 - s - 1)%Z)).
    rewrite (privacy_loss_fold (AN := DiscreteLaplace.additive_noise)
               d q _ _ Hq Hq01 (Hpl (- 1 + 1)%Z)).
    replace (Z.abs (1 - s - 1) - Z.abs (1 - s - 1 + s))%Z with s by lia.
    replace (Z.abs (- 1 + 1) - Z.abs (- 1 + 1 + s))%Z with (- s)%Z by lia.
    destruct (Hmu (Fin (IZR (1 - s - 1))) eq_refl) as [v1 Hv1].
    destruct (Hmu (Fin (IZR (- 1))) eq_refl) as [v2 Hv2].
    rewrite Hv1, Hv2. cbn [bind lower_x_truncation upper_x_truncation
                           tail_probability_mass_function].
    rewrite fsub_IZR_one, Hv1, Hv2. cbn [bind].
    rewrite dict_of_two by exact Hkeys.
    now rewrite sum_values_two.
Qed.



Lemma dg_cdf_array_facts (sigma : float) (bound : Z) :
  (0 <= bound)%Z -> fle sigma fzero = false -> is_nan sigma = false ->
  length (map fexp (dg_log_cdf sigma bound)) = Z.to_nat (2 * bound + 2) /\
  Forall (fun v => is_finite v = true) (map fexp (dg_log_cdf sigma bound)) /\
  last (map fexp (dg_log_cdf sigma bound)) NaN = Fin 1.
Proof.
  intros Hb Hsig Hnan.
  destruct (dg_raw_length sigma bound Hb) as [Hlp Hlc].
  pose proof (dg_log_cdf_raw_last sigma bound Hb Hsig Hnan) as Hlast.
  pose proof (dg_log_pmf_raw_tail_finite sigma bound Hsig Hnan) as Hfin.
  unfold dg_log_cdf.
  destruct (last (dg_log_cdf_raw sigma bound) NaN) as [| | c |] eqn:Ec;
    try discriminate.
  assert (Hne : dg_log_cdf_raw sigma bound <> []).
  { intros Hnil. rewrite Hnil in Hlc. cbn [length] in Hlc. lia. }
  split; [now rewrite !length_map |].
  split.
  - unfold dg_log_cdf_raw, dg_log_pmf_raw in *. cbn [tl] in Hfin.
    cbn [logaddexp_accumulate map].
    constructor; [reflexivity |].
    apply Forall_map, Forall_map.
    pose proof (accumulate_from_finite NInf _ (or_introl eq_refl) Hfin)
      as Hacc.
    revert Hacc. apply Forall_impl.
    intros v Hv. destruct v; try discriminate. reflexivity.
  - rewrite (last_map_nonempty fexp _ NaN).
    + rewrite (last_map_nonempty _ _ NaN) by exact Hne.
      rewrite Ec. fcbn. f_equal.
      replace (c + - c) with 0 by lra. apply exp_0.
    + intros Hnil. apply Hne. now apply map_eq_nil in Hnil.
Qed.

Lemma nth_error_last {A : Type} (l : list A) (d : A) :
  l <> [] -> nth_error l (length l - 1) = Some (last l d).
Proof.
  induction l as [| a l IH]; intros Hne; [congruence |].
  destruct l as [| b l]; [reflexivity |].
  specialize (IH ltac:(discriminate)).
  replace (length (a :: b :: l) - 1)%nat with (S (length (b :: l) - 1))
    by (cbn [length]; lia).
  exact IH.
Qed.

Lemma np_clip_Fin (r lo hi : R) :
  lo <= hi ->
  exists c, np_clip (Fin r) (Fin lo) (Fin hi) = Fin c /\ lo <= c <= hi /\
            (hi <= r -> c = hi).
Proof.
  intros Hlohi. fcbn.
  destruct (Rlt_dec r lo) as [Hr | Hr].
  - rewrite (Rltb_true r lo) by exact Hr. cbn [fmin flt].
    rewrite Rltb_false by lra. exists lo. repeat split; lra.
  - rewrite (Rltb_false r lo) by exact Hr. cbn [fmin flt].
    destruct (Rlt_dec hi r) as [Hh | Hh].
    + rewrite Rltb_true by exact Hh. exists hi. repeat split; lra.
    + rewrite Rltb_false by exact Hh. exists r. repeat split; lra.
Qed.

Section DiscreteGaussianLookup.

  Variables (d : DiscreteGaussian.t) (sigma : float) (bound : Z).
  Hypothesis Hbound : DiscreteGaussian._truncation_bound d = bound.
  Hypothesis Hoffset : DiscreteGaussian._offset d = (- 1 * bound - 1)%Z.
  Hypothesis Harr :
    DiscreteGaussian._cdf_array d = map fexp (dg_log_cdf sigma bound).
  Hypothesis Hb : (0 <= bound)%Z.
  Hypothesis Hsig : fle sigma fzero = false.
  Hypothesis Hnan : is_nan sigma = false.

Lemma dg_index_finite (i : Z) :
  (0 <= i <= 2 * bound + 1)%Z ->
  exists v, py_index (DiscreteGaussian._cdf_array d) i = Ok (Fin v) /\
            ((i = 2 * bound + 1)%Z -> v = 1).
Proof.
  intros Hi. rewrite Harr.
  destruct (dg_cdf_array_facts sigma bound Hb Hsig Hnan)
    as (Hlen & Hfin & Hlast).
  unfold py_index.
  destruct (i <? 0)%Z eqn:E; [apply Z.ltb_lt in E; lia |]. rewrite E.
  destruct (nth_error (map fexp (dg_log_cdf sigma bound)) (Z.to_nat i))
    as [v |] eqn:En.
  - pose proof (proj1 (Forall_forall _ _) Hfin v (nth_error_In _ _ En))
      as Hv.
    destruct v as [| | v |]; try discriminate.
    exists v. split; [reflexivity |].
    intros ->.
    assert (Hne : map fexp (dg_log_cdf sigma bound) <> []).
    { intros Hnil. rewrite Hnil in Hlen. cbn [length] in Hlen. lia. }
    pose proof (nth_error_last _ NaN Hne) as Hl.
    rewrite Hlen, Hlast in Hl.
    replace (Z.to_nat (2 * bound + 2) - 1)%nat
      with (Z.to_nat (2 * bound + 1)) in Hl by lia.
    rewrite Hl in En. now injection En.
  - apply nth_error_None in En. lia.
Qed.

Lemma dg_noise_cdf_Fin (r : R) :
  exists v, noise_cdf d (Fin r) = Ok (Fin v) /\ (IZR bound <= r -> v = 1).
Proof.
  cbn [noise_cdf DiscreteGaussian.additive_noise].
  unfold DiscreteGaussian.noise_cdf, DiscreteGaussian.lookup.
  rewrite Hbound, Hoffset.
  assert (Hlohi : IZR (- 1 * bound - 1) <= IZR bound) by (apply IZR_le; lia).
  destruct (np_clip_Fin r _ _ Hlohi) as (c & -> & Hc & Htop).
  pose proof (Zfloor_bounds c) as Hfl.
  assert (H1 : (Zfloor c <= bound)%Z) by (apply le_IZR; lra).
  assert (H2 : (- 1 * bound - 1 < Zfloor c + 1)%Z).
  { apply lt_IZR. rewrite plus_IZR. lra. }
  destruct (dg_index_finite (Zfloor c - (- 1 * bound - 1))%Z ltac:(lia))
    as (v & Hv & Hone).
  exists v. split; [exact Hv |].
  intros Hr. apply Hone. rewrite (Htop Hr), Zfloor_IZR. lia.
Qed.

Lemma dg_noise_cdf_finite (y : float) :
  is_nan y = false -> exists v, noise_cdf d y = Ok (Fin v).
Proof.
  intros Hy. destruct y as [| | r |]; try discriminate.
  - destruct (dg_noise_cdf_Fin (IZR (- 1 * bound - 1))) as (v & Hv & _).
    exists v. rewrite <- Hv.
    cbn [noise_cdf DiscreteGaussian.additive_noise].
    unfold DiscreteGaussian.noise_cdf, DiscreteGaussian.lookup.
    rewrite Hbound.
    assert (Hlohi : IZR (- 1 * bound - 1) <= IZR bound)
      by (apply IZR_le; lia).
    fcbn. rewrite (Rltb_false (IZR (- 1 * bound - 1))) by lra.
    cbn [fmin flt]. now rewrite Rltb_false by lra.
  - destruct (dg_noise_cdf_Fin r) as (v & Hv & _). now exists v.
  - destruct (dg_noise_cdf_Fin (IZR bound)) as (v & Hv & _).
    exists v. rewrite <- Hv.
    cbn [noise_cdf DiscreteGaussian.additive_noise].
    unfold DiscreteGaussian.noise_cdf, DiscreteGaussian.lookup.
    rewrite Hbound.
    assert (Hlohi : IZR (- 1 * bound - 1) <= IZR bound)
      by (apply IZR_le; lia).
    fcbn. rewrite (Rltb_false (IZR bound)) by lra.
    cbn [fmin flt]. now rewrite Rltb_false by lra.
Qed.

End DiscreteGaussianLookup.

Lemma base_init_sampling_prob (s : float) (q : R) :
  base_init s (Fin q) = Ok tt -> 0 < q <= 1.
Proof.
  intros Hb. apply base_init_inv in Hb as (_ & Hq0 & Hq1).
  apply fle_zero_false_Fin in Hq0.
  unfold fgt, fone in Hq1. cbn [flt] in Hq1.
  destruct (Rlt_dec 1 q) as [Hlt | Hnlt]; [| lra].
  rewrite Rltb_true in Hq1 by exact Hlt. discriminate.
Qed.

Lemma discrete_gaussian_tail_accounted (sigma : float) (s : pynum)
  (tb : option Z) (q : R) (a : AdjacencyType) (d : DiscreteGaussian.t) :
  fgt sigma fzero = true ->
  DiscreteGaussian.init sigma s tb (Fin q) a = Ok d ->
  accounted_mass (MDiscreteGaussian d) = Ok (Fin 1).
Proof.
  intros Hpos Hinit.
  apply discrete_gaussian_init_inv in Hinit
    as (z & b & -> & Hsig & _ & Hb & Hbase & Hd).
  pose proof (base_init_sensitivity_pos _ _ Hbase) as Hz.
  pose proof (base_init_sampling_prob _ _ Hbase) as Hq01.
  apply Z.ltb_ge in Hb.
  assert (Hb0 : (0 <= b)%Z) by lia.
  assert (Hnan : is_nan sigma = false) by (now destruct sigma).
  assert (Fbound : DiscreteGaussian._truncation_bound d = b)
    by (now rewrite Hd).
  assert (Foffset : DiscreteGaussian._offset d = (- 1 * b - 1)%Z)
    by (now rewrite Hd).
  assert (Farr : DiscreteGaussian._cdf_array d = map fexp (dg_log_cdf sigma b))
    by (now rewrite Hd).
  assert (Fs : DiscreteGaussian.self_sensitivity d = z) by (now rewrite Hd).
  assert (Fq : DiscreteGaussian.self_sampling_prob d = Fin q)
    by (now rewrite Hd).
  assert (Fa : DiscreteGaussian.self_adjacency_type d = a)
    by (now rewrite Hd).
  clear Hd.
  pose proof (dg_noise_cdf_Fin d sigma b Fbound Foffset Farr Hb0 Hsig Hnan)
    as Hcdf.
  pose proof (dg_noise_cdf_finite d sigma b Fbound Foffset Farr Hb0 Hsig Hnan)
    as Hfin.
  assert (Hsens : sensitivity d = Fin (IZR z)).
  { cbn [sensitivity DiscreteGaussian.additive_noise]. now rewrite Fs. }
  assert (Hmu : forall x, is_nan x = false ->
                  exists v, mu_upper_cdf d x = Ok (Fin v)).
  { intros x Hx.
    now apply (mu_upper_cdf_finite (AN := DiscreteGaussian.additive_noise)
                 d (IZR z) q x Hsens Fq Hfin). }
  assert (Htop : forall upper : Z,
            upper = (if feqb (Fin q) fone
                     then match a with ADD => b | REMOVE => b - z end
                     else b)%Z ->
            exists u, mu_upper_cdf d (Fin (IZR upper)) = Ok (Fin u) /\ u = 1).
  { intros upper Hup. unfold mu_upper_cdf.
    cbn [adjacency_type sampling_prob DiscreteGaussian.additive_noise].
    rewrite Fa, Fq, Hsens.
    destruct (feqb (Fin q) fone) eqn:Eq1; destruct a; subst upper.
    - destruct (Hcdf (IZR b)) as (u & Hu & Hone).
      exists u. split; [exact Hu | apply Hone; lra].
    - cbn [fadd].
      destruct (Hcdf (IZR (b - z) + IZR z)) as (u & Hu & Hone).
      exists u. split; [exact Hu |].
      apply Hone. rewrite minus_IZR. lra.
    - destruct (Hcdf (IZR b)) as (u & Hu & Hone).
      exists u. split; [exact Hu | apply Hone; lra].
    - cbn [fadd].
      destruct (Hcdf (IZR b)) as (u1 & Hu1 & Hone1).
      destruct (Hcdf (IZR b + IZR z)) as (u2 & Hu2 & Hone2).
      rewrite Hu1, Hu2. cbn [bind]. fcbn.
      eexists. split; [reflexivity |].
      rewrite Hone1, Hone2 by (apply IZR_lt in Hz; lra). lra. }
  unfold accounted_mass, mass_inside.
  cbn [mechanism_privacy_loss_tail mechanism_mu_upper_cdf
       mechanism_discrete_noise discrete_noise
       DiscreteGaussian.additive_noise].
  unfold DiscreteGaussian.privacy_loss_tail.
  rewrite Fa, Fq, Fbound, Fs.
  destruct (feqb (Fin q) fone) eqn:Eq1; destruct a;
    match goal with
    | |- context [mu_upper_cdf d (Fin (IZR (?lo - 1)))] =>
        destruct (Hmu (Fin (IZR (lo - 1))) eq_refl) as [v Hv]
    end;
    match goal with
    | |- context [Build_TailPrivacyLossDistribution _ (Fin (IZR ?up))] =>
        destruct (Htop up eq_refl) as (u & Hu & Hu1)
    end;
    rewrite Hv;
    cbn [bind lower_x_truncation upper_x_truncation
         tail_probability_mass_function];
    rewrite fsub_IZR_one, Hu, Hv; cbn [bind];
    unfold dict_of, sum_values; cbn [fold_left dict_set fst snd]; fcbn;
    do 2 f_equal; lra.
Qed.

(** ** The normal CDF stays below 1 *)
















(** ** The tails of the four mechanisms *)

Section Tails.

  Context {S : ScipyStats}.


Lemma laplace_init_accounted (b s q : R) (a : AdjacencyType) (l : Laplace.t) :
  Laplace.init (Fin b) (Fin s) (Fin q) a = Ok l ->
  finite_cdf (stats_laplace (Fin b)) ->
  accounted_mass (MLaplace l) = Ok (Fin 1).
Proof.
  intros Hinit Hfin.
  apply laplace_init_inv in Hinit as (Hb & Hbase & ->).
  pose proof (base_init_sampling_prob _ _ Hbase) as Hq.
  apply base_init_inv in Hbase as (Hs & _).
  apply fle_zero_false_Fin in Hb, Hs.
  now apply (laplace_tail_accounted _ b s q).
Qed.

Lemma discrete_laplace_init_accounted (a0 : R) (s : pynum) (q : R)
  (a : AdjacencyType) (d : DiscreteLaplace.t) :
  DiscreteLaplace.init (Fin a0) s (Fin q) a = Ok d ->
  finite_cdf (stats_dlaplace (Fin a0)) ->
  accounted_mass (MDiscreteLaplace d) = Ok (Fin 1).
Proof.
  intros Hinit Hfin.
  apply discrete_laplace_init_inv in Hinit as (z & -> & Ha & Hbase & ->).
  pose proof (base_init_sampling_prob _ _ Hbase) as Hq.
  apply base_init_sensitivity_pos in Hbase.
  apply fle_zero_false_Fin in Ha.
  now apply (discrete_laplace_tail_accounted _ a0 z q).
Qed.


Lemma gaussian_init_upper (sd s lb q x0 : R) (pe : bool)
  (a : AdjacencyType) (g : Gaussian.t) :
  Gaussian.init (Fin sd) (Fin s) pe (Fin lb) (Fin q) a = Ok g ->
  ppf (stats_norm (Fin sd)) (fmul fhalf (fexp (Fin lb))) = Fin x0 ->
  forall t, Gaussian.privacy_loss_tail g = Ok t ->
            upper_x_truncation t = gaussian_upper_x a x0 s.
Proof.
  intros Hinit Hppf t.
  apply gaussian_init_inv in Hinit as (_ & _ & _ & ->).
  unfold Gaussian.privacy_loss_tail.
  cbn [Gaussian._gaussian_random_variable Gaussian._log_mass_truncation_bound
       Gaussian.self_adjacency_type Gaussian.self_sensitivity
       Gaussian._pessimistic_estimate].
  rewrite Hppf.
  destruct a;
    match goal with
    | |- bind ?c _ = _ -> _ => destruct c as [pmf | e]
    end; cbn [bind]; intros Ht; try discriminate;
    injection Ht as <-; reflexivity.
Qed.

End Tails.









(** ** The optimistic Gaussian tail on the reference distributions *)



(** ** A discrete Gaussian instance *)


Lemma discrete_gaussian_init_ok (sigma q : R) (z bound : Z)
  (tb : option Z) (a : AdjacencyType) :
  0 < sigma -> (0 < z)%Z -> (z <= 2 * bound)%Z -> 0 < q <= 1 ->
  match tb with
  | None => math_ceil (fmul (Fin (116 / 10)) (Fin sigma))
  | Some b => Ok b
  end = Ok bound ->
  DiscreteGaussian.init (Fin sigma) (PyInt z) tb (Fin q) a =
  Ok {| DiscreteGaussian._sigma := Fin sigma;
        DiscreteGaussian._truncation_bound := bound;
        DiscreteGaussian._offset := (- 1 * bound - 1)%Z;
        DiscreteGaussian._log_pmf_array := dg_log_pmf (Fin sigma) bound;
        DiscreteGaussian._log_cdf_array := dg_log_cdf (Fin sigma) bound;
        DiscreteGaussian._pmf_array :=
          map fexp (dg_log_pmf (Fin sigma) bound);
        DiscreteGaussian._cdf_array :=
          map fexp (dg_log_cdf (Fin sigma) bound);
        DiscreteGaussian.self_sensitivity := z;
        DiscreteGaussian.self_sampling_prob := Fin q;
        DiscreteGaussian.self_adjacency_type := a |}.
Proof.
  intros Hsig Hz Hb Hq Htb. unfold DiscreteGaussian.init.
  assert (E1 : fle (Fin sigma) fzero = false).
  { unfold fzero. rewrite fle_Fin. apply Rleb_false. lra. }
  rewrite E1, Htb. cbn [bind].
  assert (E2 : (2 * bound <? z)%Z = false) by (apply Z.ltb_ge; lia).
  rewrite E2.
  assert (E3 : base_init (Fin (IZR z)) (Fin q) = Ok tt).
  { apply IZR_lt in Hz. unfold base_init. fsimpl. reflexivity. }
  rewrite E3. reflexivity.
Qed.

(** ** The mechanism-level statements at concrete instances *)

(** C7 at [laplace_half_add], an ADD instance. *)
Lemma mu_cdf_cases_witness :
  adjacency_type laplace_half_add = ADD /\
  mu_upper_cdf laplace_half_add (Fin 0) = noise_cdf laplace_half_add (Fin 0).
Proof.
  split; [reflexivity |].
  apply (proj1 (@mu_cdf_cases Laplace.t Laplace.additive_noise
                  laplace_half_add (Fin 0))).
  reflexivity.
Defined.

(** C5 at the Laplace mechanism with parameter 1 and sensitivity 1. *)
Lemma same_delta_for_add_and_remove_witness :
  exists mA mR : Laplace.t,
    @Laplace.init scipy_model (Fin 1) (Fin 1) (Fin 1) ADD = Ok mA /\
    @Laplace.init scipy_model (Fin 1) (Fin 1) (Fin 1) REMOVE = Ok mR /\
    forall epsilon,
      get_delta_for_epsilon mA epsilon = get_delta_for_epsilon mR epsilon.
Proof.
  do 2 eexists.
  split; [apply laplace_init_ok; lra |].
  split; [apply laplace_init_ok; lra |].
  apply (proj1 (@same_delta_for_add_and_remove scipy_model) (Fin 1) 1);
    apply laplace_init_ok; lra.
Defined.



(** C8 at [DiscreteGaussianPrivacyLoss(1, sensitivity=1, truncation_bound=2,
    adjacency_type=ADD)]: the loss is undefined at 4, outside [-2, 3]. *)
Lemma discrete_loss_undefined_witness :
  exists m : DiscreteGaussian.t,
    DiscreteGaussian.init (Fin 1) (PyInt 1) (Some 2%Z) (Fin 1) ADD = Ok m /\
    loss_support m 4 = false /\
    privacy_loss_without_subsampling m (PyInt 4) = Raise ValueError.
Proof.
  assert (Hinit := discrete_gaussian_init_ok 1 1 1 2 (Some 2%Z) ADD
                     ltac:(lra) ltac:(lia) ltac:(lia) ltac:(lra) eq_refl).
  eexists. split; [exact Hinit |].
  split; [reflexivity |].
  destruct discrete_loss_undefined as (_ & _ & _ & _ & Hsupp).
  apply (Hsupp (Fin 1) (PyInt 1) (Some 2%Z) (Fin 1) ADD _ 4%Z Hinit).
  reflexivity.
Defined.

(** * Further properties *)

(** ** Order and floor *)












Lemma fexp_np_log (A : R) : 0 <= A -> fexp (np_log (Fin A)) = Fin A.
Proof.
  intros [HA | <-].
  - rewrite np_log_pos by exact HA. cbn [fexp]. now rewrite exp_ln.
  - unfold np_log. now rewrite Rltb_false, Reqb_true by lra.
Qed.

(** ** The inverse of a loss is its cutoff point *)

Section LaplaceOrder.

Context {S : ScipyStats}.


End LaplaceOrder.

Section GaussianOrder.

Context {S : ScipyStats}.


End GaussianOrder.

Section DiscreteLaplaceOrder.

Context {S : ScipyStats}.


End DiscreteLaplaceOrder.



(** ** The range of the divergence *)

Lemma assign_length {A : Type} (mask : list bool) (xs vs : list A) :
  length (assign mask xs vs) = length xs.
Proof.
  revert xs vs. induction mask as [| b mask IH]; intros [| x xs] vs;
    try reflexivity.
  cbn [assign]. destruct b.
  - destruct vs as [| v vs]; [reflexivity |]. cbn [length]. now rewrite IH.
  - cbn [length]. now rewrite IH.
Qed.

Section Range.

Context {M : Type} `{AdditiveNoisePrivacyLoss M}.

(** X5.  Whatever the mechanism, every delta that [get_delta_for_epsilon]
    returns is a number in [[0, 1]] or NaN, and on an array the result has
    as many entries as the input. *)
Theorem get_delta_for_epsilon_range (m : M) :
  (forall es ds : list float,
     get_delta_for_epsilons m es = Ok ds ->
     length ds = length es /\ Forall unit_or_nan ds) /\
  (forall epsilon d : float,
     get_delta_for_epsilon m epsilon = Ok d -> unit_or_nan d).
Proof.
  assert (Harr : forall es ds : list float,
            get_delta_for_epsilons m es = Ok ds ->
            length ds = length es /\ Forall unit_or_nan ds).
  { intros es ds Hds. unfold get_delta_for_epsilons in Hds.
    apply bind_ok in Hds as (masks & Hmasks & Hds).
    apply bind_ok in Hds as (xs & _ & Hds).
    apply bind_ok in Hds as (us & _ & Hds).
    apply bind_ok in Hds as (ls & _ & Hds).
    injection Hds as <-. split.
    - rewrite length_map, assign_length.
      destruct (feqb (sampling_prob m) fone).
      + injection Hmasks as <-. cbn [snd]. apply length_map.
      + destruct (adjacency_type m);
          apply bind_ok in Hmasks as (t & _ & Hmasks);
          injection Hmasks as <-; cbn [snd];
          rewrite ?assign_length; apply length_map.
    - apply Forall_forall. intros d Hd. apply in_map_iff in Hd as (d0 & <- & _).
      apply np_clip_unit. }
  split; [exact Harr |].
  intros epsilon d Hd. unfold get_delta_for_epsilon in Hd.
  apply bind_ok in Hd as (ds & Hds & Hd).
  apply Harr in Hds as (_ & Hall).
  destruct ds as [| d0 [| d1 ds]]; try discriminate.
  injection Hd as <-. now inversion Hall.
Qed.

End Range.

(** ** Sub-sampling and its inverse *)




Section RoundTrip.

Context {M : Type} {AN : AdditiveNoisePrivacyLoss M}.


End RoundTrip.

(** ** The mixture in log space *)

Section Mixture.

Context {M : Type} {AN : AdditiveNoisePrivacyLoss M}.

(** X7.  Under ADD with a sampling probability [q < 1], the value of
    [mu_lower_log_cdf] at [x] is the logarithm of the mixture
    [(1-q) * F(x) + q * F(x - sensitivity)], where [F] is the exponential
    of [noise_log_cdf]; a zero probability ([-inf] in log space) is handled
    like any other. *)
Theorem mu_lower_log_cdf_mixture (m : M) (q : R) (x a b : float) (A B : R) :
  adjacency_type m = ADD ->
  sampling_prob m = Fin q -> 0 < q < 1 ->
  noise_log_cdf m x = Ok a ->
  noise_log_cdf m (fadd x (fneg (sensitivity m))) = Ok b ->
  fexp a = Fin A -> fexp b = Fin B ->
  exists l : float,
    mu_lower_log_cdf m x = Ok l /\ fexp l = Fin ((1 - q) * A + q * B).
Proof.
  intros Ha Hq Hq01 Hna Hnb HA HB.
  unfold mu_lower_log_cdf. rewrite Ha, Hq, Hna, Hnb.
  unfold fone at 1. cbn [feqb]. rewrite Reqb_false by lra. cbn [bind].
  eexists. split; [reflexivity |].
  unfold np_log1p, fone. cbn [fneg fadd].
  rewrite !np_log_pos by lra.
  unfold np_logaddexp.
  assert (H1 : fexp (fadd (Fin (ln (1 + - q))) a) = Fin ((1 - q) * A)).
  { destruct a as [| | r |]; try discriminate; cbn [fadd fexp] in *.
    - injection HA as <-. f_equal. lra.
    - injection HA as <-. now rewrite exp_plus, exp_ln by lra. }
  assert (H2 : fexp (fadd (Fin (ln q)) b) = Fin (q * B)).
  { destruct b as [| | r |]; try discriminate; cbn [fadd fexp] in *.
    - injection HB as <-. f_equal. lra.
    - injection HB as <-. rewrite exp_plus, exp_ln by lra. reflexivity. }
  rewrite H1, H2. cbn [fadd]. apply fexp_np_log.
  assert (0 <= A).
  { destruct a as [| | r |]; try discriminate; cbn [fexp] in HA;
      injection HA as <-; [lra | left; apply exp_pos]. }
  assert (0 <= B).
  { destruct b as [| | r |]; try discriminate; cbn [fexp] in HB;
      injection HB as <-; [lra | left; apply exp_pos]. }
  nra.
Qed.

End Mixture.

(** ** Tails and connect-the-dots bounds *)


Section LaplaceTail.

Context {S : ScipyStats}.




End LaplaceTail.

Section LaplaceBounds.

Context {S : ScipyStats}.




End LaplaceBounds.


Section GaussianBounds.

Context {S : ScipyStats}.




End GaussianBounds.

Section DiscreteLaplaceBounds.

Context {S : ScipyStats}.




End DiscreteLaplaceBounds.




Section Generic.

Context {M : Type} {AN : AdditiveNoisePrivacyLoss M}.



End Generic.



(** ** Calibration to a privacy guarantee *)






Section LaplaceCalibration.

Context {S : ScipyStats}.



End LaplaceCalibration.


Section DiscreteLaplaceCalibration.

Context {S : ScipyStats}.




End DiscreteLaplaceCalibration.

(** ** The discrete Gaussian distribution *)








Section Arrays.

Variables (sigma : R) (bound : Z).

Hypothesis Hsigma : 0 < sigma.

Hypothesis Hbound : (0 <= bound)%Z.







End Arrays.


(** ** The divergence of the Laplace mechanism *)

Section LaplaceDelta.

Context {S : ScipyStats}.

Lemma laplace_delta_add (b s eps : R) :
  0 < b -> 0 < s ->
  laplace_distributed (stats_laplace (Fin b)) b ->
  let m := {| Laplace._parameter := Fin b;
              Laplace._laplace_random_variable := stats_laplace (Fin b);
              Laplace.self_sensitivity := Fin s;
              Laplace.self_sampling_prob := Fin 1;
              Laplace.self_adjacency_type := ADD |} in
  (eps <= - (s / b) ->
   get_delta_for_epsilon m (Fin eps) = Ok (Fin (1 - exp eps))) /\
  (- (s / b) < eps <= s / b ->
   get_delta_for_epsilon m (Fin eps)
   = Ok (Fin (1 - exp ((eps - s / b) / 2)))) /\
  (s / b < eps -> get_delta_for_epsilon m (Fin eps) = Ok (Fin 0)).
Proof.
  intros Hb Hs Hrv m.
  assert (Hcdf : forall x, cdf (stats_laplace (Fin b)) x
                           = cdf_of (fun t => std_laplace_cdf (t / b)) x)
    by (intros x; apply Hrv).
  assert (Hlog : forall x, logcdf (stats_laplace (Fin b)) x
                  = np_log (cdf_of (fun t => std_laplace_cdf (t / b)) x)).
  { intros x. rewrite <- Hcdf. apply Hrv. }
  assert (Hsb : 0 < s / b) by (now apply Rdiv_lt_0_compat).
  assert (Hsbb : s / b * b = s) by (field; lra).
  assert (Hmul : forall t, (t <= s / b <-> t * b <= s))
    by (intros t; split; intros; nra).
  assert (Hmul' : forall t, (- (s / b) < t <-> - s < t * b))
    by (intros t; split; intros; nra).
  pose proof (get_delta_unsampled (H := Laplace.additive_noise) m (Fin eps)
                eq_refl) as Hgd.
  rewrite Hgd. clear Hgd.
  unfold cutoff_delta.
  rewrite (inverse_privacy_loss_unsampled (H := Laplace.additive_noise) m
             (Fin eps) eq_refl).
  cbn [inverse_privacy_loss_without_subsampling Laplace.additive_noise].
  unfold Laplace.inverse_privacy_loss_without_subsampling, mu_upper_cdf,
    mu_lower_log_cdf.
  cbn [m Laplace._parameter Laplace.self_sensitivity
       Laplace.self_adjacency_type adjacency_type sampling_prob sensitivity
       noise_cdf noise_log_cdf Laplace.additive_noise
       Laplace.self_sampling_prob Laplace._laplace_random_variable].
  unfold Laplace.noise_cdf, Laplace.noise_log_cdf.
  cbn [Laplace._laplace_random_variable].
  unfold fone, fzero. cbn [feqb]. rewrite !(Reqb_true 1 1) by reflexivity.
  unfold fgt. cbn [fmul fneg flt]. rewrite fle_Fin.
  split; [| split]; intros He.
  - assert (eps * b <= - s) by (apply Rnot_lt_le; intros Hc; nra).
    rewrite Rltb_false, Rleb_true by lra. cbn [bind fadd].
    rewrite Hcdf, Hlog. cbn [cdf_of]. rewrite np_log_pos by lra.
    cbn [fadd fexp fsub fneg]. rewrite ln_1, Rplus_0_r.
    assert (exp eps < 1).
    { rewrite <- exp_0. apply exp_increasing. lra. }
    pose proof (exp_pos eps).
    unfold fsub. cbn [fneg fadd].
    rewrite np_clip_unit_id by lra. reflexivity.
  - assert (- s < eps * b <= s) by (split; nra).
    rewrite Rltb_false, Rleb_false by lra. unfold fhalf, fsub.
    cbn [bind fadd fneg fmul].
    rewrite Hcdf, Hlog. cbn [cdf_of]. unfold std_laplace_cdf.
    set (X := 1 / 2 * (s + - (eps * b))).
    assert (HX : 0 <= X < s) by (unfold X; lra).
    assert (HXb : 0 <= X / b).
    { apply Rmult_le_pos; [lra |]. left. now apply Rinv_0_lt_compat. }
    assert (HXs : (X + - s) / b < 0).
    { unfold Rdiv. pose proof (Rinv_0_lt_compat b Hb). nra. }
    rewrite (Rltb_false (X / b)), (Rltb_true ((X + - s) / b)) by lra.
    pose proof (exp_pos ((X + - s) / b)).
    rewrite np_log_pos by lra. cbn [fadd fexp fneg].
    assert (E1 : exp (- (X / b)) = exp ((eps - s / b) / 2)).
    { f_equal. unfold X. field. lra. }
    assert (E2 : exp (eps + ln (exp ((X + - s) / b) / 2))
                 = exp ((eps - s / b) / 2) / 2).
    { rewrite exp_plus, exp_ln by lra.
      replace (exp eps * (exp ((X + - s) / b) / 2))
        with (exp eps * exp ((X + - s) / b) / 2) by lra.
      rewrite <- exp_plus. do 2 f_equal. unfold X. field. lra. }
    rewrite E1, E2.
    assert (exp ((eps - s / b) / 2) <= 1).
    { rewrite <- exp_0. destruct (Req_dec eps (s / b)) as [-> | Hne].
      - right. f_equal. lra.
      - left. apply exp_increasing. lra. }
    pose proof (exp_pos ((eps - s / b) / 2)).
    rewrite np_clip_unit_id by lra. do 2 f_equal. lra.
  - assert (s < eps * b) by nra.
    rewrite Rltb_true by lra. cbn [bind fadd].
    rewrite Hcdf, Hlog. cbn [cdf_of].
    unfold np_log. rewrite Rltb_false, Reqb_true by lra.
    cbn [fadd fexp]. unfold fsub. cbn [fneg fadd].
    rewrite np_clip_unit_id by lra. do 2 f_equal. lra.
Qed.

(** Without sub-sampling the divergence of a Laplace instance is that of
    the ADD instance with the same parameter and sensitivity. *)
Lemma laplace_delta_as_add (b s : R) (a : AdjacencyType) (m : Laplace.t)
  (epsilon : float) :
  Laplace.init (Fin b) (Fin s) (Fin 1) a = Ok m ->
  0 < b /\ 0 < s /\
  get_delta_for_epsilon m epsilon
  = get_delta_for_epsilon
      {| Laplace._parameter := Fin b;
         Laplace._laplace_random_variable := stats_laplace (Fin b);
         Laplace.self_sensitivity := Fin s;
         Laplace.self_sampling_prob := Fin 1;
         Laplace.self_adjacency_type := ADD |} epsilon.
Proof.
  intros Hinit.
  pose proof (laplace_init_inv _ _ _ _ _ Hinit) as (Hb & Hbase & _).
  apply fle_zero_false_Fin in Hb.
  apply base_init_inv in Hbase as (Hs & _). apply fle_zero_false_Fin in Hs.
  pose proof (laplace_init_ok b s 1 ADD Hb Hs ltac:(lra)) as HA.
  split; [exact Hb |]. split; [exact Hs |].
  destruct a.
  - rewrite HA in Hinit. now injection Hinit as <-.
  - symmetry. exact (laplace_same_delta (Fin b) s _ m HA Hinit epsilon).
Qed.

(** X16.  When [stats.laplace] is the Laplace distribution and the sampling
    probability is 1, [get_delta_for_epsilon] of a Laplace instance is the
    hockey-stick divergence in closed form, for both adjacency types:
    [1 - exp(epsilon)] up to [-s/b], [1 - exp((epsilon - s/b) / 2)] up to
    [s/b], and 0 above. *)
Theorem laplace_delta_closed_form (b s eps : R) (a : AdjacencyType)
  (m : Laplace.t) :
  Laplace.init (Fin b) (Fin s) (Fin 1) a = Ok m ->
  laplace_distributed (stats_laplace (Fin b)) b ->
  (eps <= - (s / b) ->
   get_delta_for_epsilon m (Fin eps) = Ok (Fin (1 - exp eps))) /\
  (- (s / b) < eps <= s / b ->
   get_delta_for_epsilon m (Fin eps)
   = Ok (Fin (1 - exp ((eps - s / b) / 2)))) /\
  (s / b < eps -> get_delta_for_epsilon m (Fin eps) = Ok (Fin 0)).
Proof.
  intros Hinit Hrv.
  destruct (laplace_delta_as_add b s a m (Fin eps) Hinit) as (Hb & Hs & ->).
  destruct (laplace_delta_add b s eps Hb Hs Hrv) as (Hlow & Hmid & Hhigh).
  split; [exact Hlow |]. split; [exact Hmid | exact Hhigh].
Qed.


End LaplaceDelta.

(** ** The divergence of the discrete Gaussian is total *)




Section Total.

Context {M : Type} {AN : AdditiveNoisePrivacyLoss M}.




End Total.

Section Total2.

Context {M : Type} {AN : AdditiveNoisePrivacyLoss M}.



End Total2.




(** ** What the constructors accept *)

Lemma fle_zero_false_iff (x : float) :
  fle x fzero = false <-> positive_or_nan x = true.
Proof.
  unfold positive_or_nan, fzero.
  destruct x as [| | r |]; cbn [is_nan flt orb]; try rewrite fle_Fin;
    try (split; [reflexivity | reflexivity]);
    try (split; discriminate).
  unfold Rleb, Rltb. destruct (Rle_dec r 0), (Rlt_dec 0 r);
    split; intros; try reflexivity; try discriminate; lra.
Qed.

Lemma base_init_ok_iff (s q : float) :
  is_ok (base_init s q) = true <->
  positive_or_nan s = true /\ probability_or_nan q = true.
Proof.
  rewrite <- fle_zero_false_iff. unfold base_init, probability_or_nan.
  destruct (fle s fzero);
    [split; [discriminate | intros [? _]; discriminate] |].
  destruct q as [| | r |]; unfold fgt, fzero, fone; cbn [is_nan flt orb andb];
    try rewrite !fle_Fin; cbn [fle flt feqb orb is_ok];
    try (split; [auto | reflexivity]);
    try (split; [discriminate | intros [_ ?]; discriminate]).
  unfold Rleb, Rltb.
  destruct (Rle_dec r 0), (Rlt_dec 1 r), (Rlt_dec 0 r), (Rle_dec r 1);
    cbn [orb andb is_ok]; split; intros; try (split; reflexivity);
    try discriminate; try lra; try (destruct H; discriminate).
Qed.

Section Validation.

Context {S : ScipyStats}.

(** X19.  The constructors of the Laplace and the Gaussian mechanism accept
    exactly the arguments that their comparisons do not reject: a
    parameter and a sensitivity that are positive or NaN, and a sampling
    probability in [(0, 1]] or NaN (for the Gaussian also a
    log-mass truncation bound that is not positive).  In particular NaN
    passes every check.  A discrete Gaussian with a NaN [sigma] and no
    truncation bound raises [ValueError]. *)
Theorem constructor_validation :
  (forall (p s q : float) (a : AdjacencyType),
     is_ok (Laplace.init p s q a) = true <->
     positive_or_nan p = true /\ positive_or_nan s = true /\
     probability_or_nan q = true) /\
  (forall (sd s : float) (pe : bool) (lb q : float) (a : AdjacencyType),
     is_ok (Gaussian.init sd s pe lb q a) = true <->
     positive_or_nan sd = true /\ fgt lb fzero = false /\
     positive_or_nan s = true /\ probability_or_nan q = true) /\
  (forall (a : AdjacencyType) (pe : bool),
     is_ok (Laplace.init NaN NaN NaN a) = true /\
     is_ok (Gaussian.init NaN NaN pe NaN NaN a) = true) /\
  (forall (z : Z) (q : float) (a : AdjacencyType),
     DiscreteGaussian.init NaN (PyInt z) None q a = Raise ValueError).
Proof.
  split; [| split; [| split]].
  - intros p s q a. rewrite <- base_init_ok_iff, <- fle_zero_false_iff.
    unfold Laplace.init. destruct (fle p fzero).
    + split; [discriminate | intros [? _]; discriminate].
    + destruct (base_init s q) as [[] | e]; cbn [bind is_ok];
        split; auto; intros [_ ?]; assumption.
  - intros sd s pe lb q a.
    rewrite <- base_init_ok_iff, <- fle_zero_false_iff.
    unfold Gaussian.init. destruct (fle sd fzero).
    + split; [discriminate | intros [? _]; discriminate].
    + destruct (fgt lb fzero).
      * split; [discriminate | intros (_ & ? & _); discriminate].
      * destruct (base_init s q) as [[] | e]; cbn [bind is_ok];
          split; auto; intros (_ & _ & ?); assumption.
  - intros a pe. split; reflexivity.
  - reflexivity.
Qed.

End Validation.

(** ** The privacy loss is non-increasing *)



Lemma exp_le_compat (x y : R) : x <= y -> exp x <= exp y.
Proof.
  intros [Hlt | ->]; [left; now apply exp_increasing | apply Rle_refl].
Qed.

Section Monotone.

Context {M : Type} {AN : AdditiveNoisePrivacyLoss M}.


End Monotone.



Section MechanismOrder.

Context {S : ScipyStats}.


End MechanismOrder.

(** ** The standard deviation of the discrete Gaussian noise *)









(** ** The reference distributions *)
Lemma scipy_model_laplace_distributed (b : R) :
  0 < b -> laplace_distributed (@stats_laplace scipy_model (Fin b)) b.
Proof.
  intros Hb x. cbn [stats_laplace scipy_model]. unfold scaled.
  rewrite Rltb_true by exact Hb. split; reflexivity.
Qed.

Lemma std_laplace_cdf_pos (x : R) : 0 < std_laplace_cdf x.
Proof.
  unfold std_laplace_cdf. destruct (Rlt_dec x 0) as [Hx | Hx].
  - rewrite Rltb_true by exact Hx. pose proof (exp_pos x). lra.
  - rewrite Rltb_false by exact Hx.
    assert (exp (- x) <= 1); [| lra].
    rewrite <- exp_0. apply exp_le_compat. lra.
Qed.

Lemma laplace_distributed_fexp (rv : rv_frozen) (b x : R) :
  laplace_distributed rv b ->
  fexp (logcdf rv (Fin x)) = Fin (std_laplace_cdf (x / b)).
Proof.
  intros Hrv. destruct (Hrv (Fin x)) as [Hc ->]. rewrite Hc. cbn [cdf_of].
  apply fexp_np_log. left. apply std_laplace_cdf_pos.
Qed.


(** [LaplacePrivacyLoss(1, sensitivity=1)] over the reference
    distributions, for either adjacency type. *)
Lemma laplace_unit_init (a : AdjacencyType) :
  @Laplace.init scipy_model (Fin 1) (Fin 1) (Fin 1) a
  = Ok {| Laplace._parameter := Fin 1;
          Laplace._laplace_random_variable :=
            @stats_laplace scipy_model (Fin 1);
          Laplace.self_sensitivity := Fin 1;
          Laplace.self_sampling_prob := Fin 1;
          Laplace.self_adjacency_type := a |}.
Proof. apply laplace_init_ok; lra. Qed.





(** X5 at [LaplacePrivacyLoss(1, sensitivity=1, adjacency_type=ADD)] and
    epsilon 2, where the delta is 0. *)
Lemma get_delta_for_epsilon_range_witness :
  exists m : Laplace.t,
    @Laplace.init scipy_model (Fin 1) (Fin 1) (Fin 1) ADD = Ok m /\
    get_delta_for_epsilon m (Fin 2) = Ok (Fin 0) /\
    unit_or_nan (Fin 0).
Proof.
  assert (Hinit := laplace_unit_init ADD).
  assert (Hd := proj2 (proj2 (@laplace_delta_add scipy_model 1 1 2
                                ltac:(lra) ltac:(lra)
                                (scipy_model_laplace_distributed 1
                                   ltac:(lra)))) ltac:(lra)).
  eexists. split; [exact Hinit |]. split; [exact Hd |].
  exact (proj2 (get_delta_for_epsilon_range _) (Fin 2) (Fin 0) Hd).
Defined.


(** X7 at [laplace_half_add] and the point 0. *)
Lemma mu_lower_log_cdf_mixture_witness :
  adjacency_type laplace_half_add = ADD /\
  exists l : float,
    mu_lower_log_cdf laplace_half_add (Fin 0) = Ok l /\
    fexp l = Fin ((1 - 1 / 2) * std_laplace_cdf (0 / 1)
                  + 1 / 2 * std_laplace_cdf ((0 + - (1)) / 1)).
Proof.
  split; [reflexivity |].
  pose proof (scipy_model_laplace_distributed 1 ltac:(lra)) as Hrv.
  exact (@mu_lower_log_cdf_mixture Laplace.t Laplace.additive_noise
           laplace_half_add (1 / 2) (Fin 0) _ _ _ _ eq_refl eq_refl
           ltac:(lra) eq_refl eq_refl
           (laplace_distributed_fexp _ 1 0 Hrv)
           (laplace_distributed_fexp _ 1 (0 + - (1)) Hrv)).
Defined.









(** X16 at [LaplacePrivacyLoss(1, sensitivity=1)] under REMOVE and
    epsilon 0. *)
Lemma laplace_delta_closed_form_witness :
  exists m : Laplace.t,
    @Laplace.init scipy_model (Fin 1) (Fin 1) (Fin 1) REMOVE = Ok m /\
    laplace_distributed (@stats_laplace scipy_model (Fin 1)) 1 /\
    get_delta_for_epsilon m (Fin 0) = Ok (Fin (1 - exp ((0 - 1 / 1) / 2))).
Proof.
  assert (Hinit := laplace_unit_init REMOVE).
  assert (Hrv := scipy_model_laplace_distributed 1 ltac:(lra)).
  eexists. split; [exact Hinit |]. split; [exact Hrv |].
  apply (proj1 (proj2 (@laplace_delta_closed_form scipy_model 1 1 0 REMOVE _
                         Hinit Hrv))).
  lra.
Defined.



(** X19 at [LaplacePrivacyLoss(1, sensitivity=1)]. *)
Lemma constructor_validation_witness :
  is_ok (@Laplace.init scipy_model (Fin 1) (Fin 1) (Fin 1) ADD) = true /\
  positive_or_nan (Fin 1) = true /\ positive_or_nan (Fin 1) = true /\
  probability_or_nan (Fin 1) = true.
Proof.
  assert (Hok : is_ok (@Laplace.init scipy_model (Fin 1) (Fin 1) (Fin 1) ADD)
                = true) by (now rewrite laplace_unit_init).
  split; [exact Hok |].
  exact (proj1 (proj1 (@constructor_validation scipy_model) (Fin 1) (Fin 1)
                  (Fin 1) ADD) Hok).
Defined.


